(** * cad-simple-viewer-example: the ellipse command and the viewer application

    A shallow embedding of [src/ellipseCmd.ts] and of the two listings of
    [src/main.ts] (the container-based application, lines 1-218, and the
    canvas-based one, lines 219-432), with the properties stated about them.

    JavaScript numbers are IEEE 754 binary64 values: they are modelled by
    Rocq's primitive floats, which are the same format with the same
    round-to-nearest operations, so that the arithmetic of the source
    evaluates here bit for bit.  Objects that the source mutates after
    sharing them (the jig's preview ellipse) live in an explicit object
    store and are named by references. *)

From Stdlib Require Import Floats ZArith String Ascii List Bool Arith Lia.
From stdpp Require Import base option list.
Import ListNotations.

Set Default Proof Using "Type".

(** ** Completions of calls that can throw or reject *)

(** A call either returns a value or throws (an awaited promise either
    resolves or rejects); both leave a store behind. *)
Inductive Completion (A : Type) : Type :=
| Returned (a : A)
| Thrown (e : string).
Arguments Returned {A} a.
Arguments Thrown {A} e.

(** Computations over a store [S] that may throw. *)
Definition Eff (S A : Type) : Type := S -> Completion A * S.

Definition ret {S A} (a : A) : Eff S A := fun s => (Returned a, s).
Definition throw {S A} (e : string) : Eff S A := fun s => (Thrown e, s).
Definition bind {S A B} (m : Eff S A) (k : A -> Eff S B) : Eff S B :=
  fun s => match m s with
           | (Returned a, s') => k a s'
           | (Thrown e, s') => (Thrown e, s')
           end.
Definition gets {S A} (f : S -> A) : Eff S A := fun s => (Returned (f s), s).
Definition modify {S} (f : S -> S) : Eff S unit := fun s => (Returned tt, f s).

Declare Scope eff_scope.
Delimit Scope eff_scope with eff.
Notation "x <- m ; k" := (bind m (fun x => k))
  (at level 20, m at level 100, k at level 200, only parsing) : eff_scope.
Notation "m ;; k" := (bind m (fun _ => k))
  (at level 100, k at level 200, only parsing, right associativity) : eff_scope.

(** ** Geometry of the data model (package [@mlightcad/data-model]) *)

(** [AcGePoint3dLike]: an object with numeric [x], [y], [z]. *)
Record AcGePoint3d : Type := mkPoint { px : float; py : float; pz : float }.

Module AcGeVector3d.

Record t : Type := mk { x : float; y : float; z : float }.

(** Modelled from the spec: the constant [AcGeVector3d.Z_AXIS] of the
    data-model package is not under src/; the spec calls it the canonical
    up-axis, the unit vector along Z. *)
Definition Z_AXIS : t := mk 0 0 1.

(** Modelled from the spec: the method [length()] of the data-model
    package is not under src/; the spec writes it |V|, the Euclidean
    norm. *)
Definition length (v : t) : float :=
  PrimFloat.sqrt (x v * x v + y v * y v + z v * z v)%float.

(** Modelled from the spec: the method [normalize()] of the data-model
    package is not under src/; the spec writes it V / |V| and calls it
    undefined for |V| = 0 (the quotient 0/0 of binary64 is NaN). *)
Definition normalize (v : t) : t :=
  let l := length v in mk (x v / l) (y v / l) (z v / l).

End AcGeVector3d.

(** [Math.PI], the binary64 number nearest to pi. *)
Definition Math_PI : float := 0x1.921fb54442d18p+1%float.

(** [AcDbEllipse], the entity class of the data-model package, as the
    tuple of its constructor arguments
    [(center, normal, majorAxis, majorAxisRadius, minorAxisRadius,
      startAngle, endAngle)]. *)
Record AcDbEllipse : Type := mkEllipse {
  center : AcGePoint3d;
  normal : AcGeVector3d.t;
  majorAxis : AcGeVector3d.t;
  majorAxisRadius : float;
  minorAxisRadius : float;
  startAngle : float;
  endAngle : float
}.

(** The setter [ellipse.minorAxisRadius = v]. *)
Definition set_minorAxisRadius (v : float) (e : AcDbEllipse) : AcDbEllipse :=
  mkEllipse (center e) (normal e) (majorAxis e) (majorAxisRadius e) v
            (startAngle e) (endAngle e).

(** ** The drawing session: object store, model space, pending user input *)

(** A reference to an ellipse object of the store: its index. *)
Abbreviation ref := nat.

(** What the user does at a prompt of the editor. *)
Inductive UserInput : Type :=
| PickPoint (p : AcGePoint3d)
    (** a point is clicked *)
| EnterDistance (candidates : list float) (d : float)
    (** the pointer passes over [candidates], then [d] is committed *)
| Cancel
    (** the prompt is abandoned *).

Record Session : Type := mkSession {
  objects : list AcDbEllipse;   (** the ellipse objects allocated so far *)
  modelSpace : list ref;        (** [db.tables.blockTable.modelSpace] *)
  inputs : list UserInput       (** what the user will do, in order *)
}.

Definition set_objects (f : list AcDbEllipse -> list AcDbEllipse) (s : Session) :=
  mkSession (f (objects s)) (modelSpace s) (inputs s).
Definition set_modelSpace (f : list ref -> list ref) (s : Session) :=
  mkSession (objects s) (f (modelSpace s)) (inputs s).
Definition set_inputs (f : list UserInput -> list UserInput) (s : Session) :=
  mkSession (objects s) (modelSpace s) (f (inputs s)).

Local Open Scope eff_scope.

(** [new AcDbEllipse(...)]: the object is allocated at the next free
    reference. *)
Definition new_AcDbEllipse (c : AcGePoint3d) (n a : AcGeVector3d.t)
    (major minor s e : float) : Eff Session ref :=
  r <- gets (fun s => List.length (objects s)) ;
  modify (set_objects (fun os => os ++ [mkEllipse c n a major minor s e])) ;;
  ret r.

(** [modelSpace.appendEntity(ellipse)]. *)
Definition appendEntity (r : ref) : Eff Session unit :=
  modify (set_modelSpace (fun ms => ms ++ [r])).

(** ** ellipseCmd.ts, lines 5-39: the preview jig *)

Module AcApEllipseJig.

Record t : Type := mk {
  view : nat;        (** the view handed to [super(view)] *)
  _ellipse : ref     (** [private _ellipse: AcDbEllipse] *)
}.

(** [constructor(view, center, majorAxisEndPoint)], lines 13-30.  The
    radius is taken from the vector before it is normalized. *)
Definition new (view : nat) (center majorAxisEndPoint : AcGePoint3d)
  : Eff Session t :=
  let majorAxis := AcGeVector3d.mk
    (px majorAxisEndPoint - px center)
    (py majorAxisEndPoint - py center)
    (pz majorAxisEndPoint - pz center) in
  let majorAxisRadius := AcGeVector3d.length majorAxis in
  e <- new_AcDbEllipse
         center
         AcGeVector3d.Z_AXIS
         (AcGeVector3d.normalize majorAxis)
         majorAxisRadius
         majorAxisRadius
         0
         (Math_PI * 2) ;
  ret (mk view e).

(** [get entity()], lines 32-34: the object the jig refers to. *)
Definition entity (j : t) (s : Session) : option AcDbEllipse :=
  objects s !! _ellipse j.

(** [update(minorRadius)], lines 36-38: an assignment to the shared
    object, in place.  (A jig always refers to an allocated object;
    [alter] leaves the store alone at a reference that is not.) *)
Definition update (j : t) (minorRadius : float) : Eff Session unit :=
  modify (set_objects (alter (set_minorAxisRadius minorRadius) (_ellipse j))).

End AcApEllipseJig.

(** ** The editor of the viewer package, as far as the command uses it *)

(** [AcApI18n.t(key)]: the translation tables are not part of this
    repository; a key stands for its text. *)
Definition AcApI18n_t (key : string) : string := key.

Record AcEdPromptPointOptions : Type := mkPointOptions {
  pt_message : string;
  pt_useDashedLine : bool;
  pt_useBasePoint : bool
}.

Record AcEdPromptDistanceOptions : Type := mkDistanceOptions {
  ds_message : string;
  ds_useDashedLine : bool;
  ds_basePoint : option AcGePoint3d;
  ds_jig : option AcApEllipseJig.t
}.

(** [editor.getPoint(options)]: resolves with the point the user picks;
    rejects when the user does anything else. *)
Definition getPoint (_ : AcEdPromptPointOptions) : Eff Session AcGePoint3d :=
  fun s =>
    match inputs s with
    | PickPoint p :: rest => (Returned p, set_inputs (fun _ => rest) s)
    | _ :: rest => (Thrown "prompt cancelled", set_inputs (fun _ => rest) s)
    | [] => (Thrown "no input", s)
    end.

(** The jig is told every candidate value, in order. *)
Fixpoint preview (j : AcApEllipseJig.t) (candidates : list float)
  : Eff Session unit :=
  match candidates with
  | [] => ret tt
  | v :: vs => AcApEllipseJig.update j v ;; preview j vs
  end.

(** [editor.getDistance(options)]: while the user moves the pointer the
    jig of the options (if any) is updated with each candidate value; the
    call resolves with the committed distance. *)
Definition getDistance (o : AcEdPromptDistanceOptions) : Eff Session float :=
  fun s =>
    match inputs s with
    | EnterDistance candidates d :: rest =>
        ((match ds_jig o with
          | Some j => preview j candidates
          | None => ret tt
         end) ;; ret d) (set_inputs (fun _ => rest) s)
    | _ :: rest => (Thrown "prompt cancelled", set_inputs (fun _ => rest) s)
    | [] => (Thrown "no input", s)
    end.

(** ** ellipseCmd.ts, lines 44-86: the command *)

Record AcApContext : Type := mkContext { ctx_view : nat }.

Module AcApEllipseCmd.

(** The ellipse that lines 69-83 build from the three prompted values. *)
Definition build (center majorAxisEndPoint : AcGePoint3d) (minorRadius : float)
  : Eff Session ref :=
  let majorAxis := AcGeVector3d.mk
    (px majorAxisEndPoint - px center)
    (py majorAxisEndPoint - py center)
    (pz majorAxisEndPoint - pz center) in
  let majorAxisRadius := AcGeVector3d.length majorAxis in
  new_AcDbEllipse
    center
    AcGeVector3d.Z_AXIS
    (AcGeVector3d.normalize majorAxis)
    majorAxisRadius
    minorRadius
    0
    (Math_PI * 2).

(** [execute(context)], lines 45-85, and the jig it created. *)
Definition execute_with_jig (context : AcApContext)
  : Eff Session AcApEllipseJig.t :=
  let centerPrompt :=
    mkPointOptions (AcApI18n_t "jig.ellipse.center") false false in
  center <- getPoint centerPrompt ;
  let majorAxisEndPointPrompt :=
    mkPointOptions (AcApI18n_t "jig.ellipse.majorRadius") true true in
  majorAxisEndPoint <- getPoint majorAxisEndPointPrompt ;
  jig <- AcApEllipseJig.new (ctx_view context) center majorAxisEndPoint ;
  let minorRadiusPrompt :=
    mkDistanceOptions (AcApI18n_t "jig.ellipse.minorRadius") false
                      (Some center) (Some jig) in
  minorRadius <- getDistance minorRadiusPrompt ;
  ellipse <- build center majorAxisEndPoint minorRadius ;
  appendEntity ellipse ;;
  ret jig.

(** [execute(context)]. *)
Definition execute (context : AcApContext) : Eff Session unit :=
  execute_with_jig context ;; ret tt.

End AcApEllipseCmd.

Local Close Scope eff_scope.

(** The vector from [c] to [p], as lines 15-19 and 69-73 compute it. *)
Definition axis_vector (c p : AcGePoint3d) : AcGeVector3d.t :=
  AcGeVector3d.mk (px p - px c) (py p - py c) (pz p - pz c).

(** Two points are the same when their coordinates are equal numbers
    (the equality of [===] on numbers). *)
Definition same_point (p q : AcGePoint3d) : bool :=
  (px p =? px q)%float && (py p =? py q)%float && (pz p =? pz q)%float.


(** A preview ellipse after the jig was updated with [vs], in order. *)
Definition previewed (vs : list float) (e : AcDbEllipse) : AcDbEllipse :=
  fold_left (fun e v => set_minorAxisRadius v e) vs e.

(** ** Strings: [toLowerCase] and [endsWith] *)

(** File names are strings of 8-bit characters; [toLowerCase] maps the
    letters A-Z to a-z and leaves every other character alone. *)
Definition lower_ascii (c : ascii) : ascii :=
  let n := nat_of_ascii c in
  if (65 <=? n) && (n <=? 90) then ascii_of_nat (n + 32) else c.

Fixpoint toLowerCase (s : string) : string :=
  match s with
  | EmptyString => EmptyString
  | String c r => String (lower_ascii c) (toLowerCase r)
  end.

(** [s.endsWith(suffix)]: the last [suffix.length] characters of [s] are
    [suffix]. *)
Definition endsWith (s suffix : string) : bool :=
  (String.length suffix <=? String.length s)
  && String.eqb (substring (String.length s - String.length suffix)
                           (String.length suffix) s) suffix.

(** ** The page: elements, selectors, timers *)

(** What the code reads and writes of an element.  [uid] is the identity
    of the element object; [className] is kept as its list of class
    tokens; [style] lists the properties assigned, latest first. *)
Record Attrs : Type := mkAttrs {
  uid : nat;
  className : list string;
  textContent : string;
  style : list (string * string)
}.

#[local] Unset Elimination Schemes.
Inductive Node : Type :=
| Element (a : Attrs) (children : list Node).
#[local] Set Elimination Schemes.

Definition attrs (n : Node) : Attrs := match n with Element a _ => a end.
Definition children (n : Node) : list Node := match n with Element _ c => c end.

(** The elements of a subtree, in document order. *)
Fixpoint elements (n : Node) : list Attrs :=
  match n with
  | Element a ch => a :: concat (map elements ch)
  end.

(** [querySelectorAll] below a list of sibling nodes, for a selector that
    tests one element. *)
Definition all_elements (f : list Node) : list Attrs := concat (map elements f).

Definition querySelectorAll (sel : Attrs -> bool) (f : list Node) : list Attrs :=
  List.filter sel (all_elements f).

(** Detaching every element that [sel] selects, at any depth: what
    [forEach(el => el.remove())] leaves of a subtree whose root stays. *)
Fixpoint detach (sel : Attrs -> bool) (n : Node) : Node :=
  match n with
  | Element a ch =>
      Element a (List.filter (fun c => negb (sel (attrs c))) (map (detach sel) ch))
  end.

Definition detach_all (sel : Attrs -> bool) (f : list Node) : list Node :=
  List.filter (fun c => negb (sel (attrs c))) (map (detach sel) f).

(** Induction on a tree, with the hypothesis for every child. *)
Fixpoint Node_ind (P : Node -> Prop)
    (H : forall a ch, Forall P ch -> P (Element a ch)) (n : Node) : P n :=
  match n with
  | Element a ch =>
      H a ch ((fix go (l : list Node) : Forall P l :=
                 match l with
                 | [] => @List.Forall_nil _ P
                 | x :: l' => @List.Forall_cons _ P x l' (Node_ind P H x) (go l')
                 end) ch)
  end.

(** Rewriting the attributes of the elements that [sel] selects. *)
Fixpoint restyle (sel : Attrs -> bool) (g : Attrs -> Attrs) (n : Node) : Node :=
  match n with
  | Element a ch =>
      Element (if sel a then g a else a) (map (restyle sel g) ch)
  end.

(** The selector [.popup-message]. *)
Definition is_popup (a : Attrs) : bool :=
  existsb (String.eqb "popup-message") (className a).

(** The element object with identity [u]. *)
Definition is_uid (u : nat) (a : Attrs) : bool := uid a =? u.

(** [el.style.prop = value]. *)
Definition set_style (prop value : string) (a : Attrs) : Attrs :=
  mkAttrs (uid a) (className a) (textContent a) ((prop, value) :: style a).

(** The callbacks the application hands to [setTimeout]. *)
Inductive Callback : Type :=
| FadeOut (u : nat)   (** main.ts 195-202: fade, then schedule the removal *)
| Remove (u : nat).   (** main.ts 197-201: remove the popup if attached *)

Record Timer : Type := mkTimer { due : nat; callback : Callback }.

(** The two ways the applications read a file with [FileReader]. *)
Inductive ReadMode : Type := AsText | AsArrayBuffer.

(** The browser side of the state.  The page's own controls (markup that
    is not part of the sources) are kept as the properties the code
    writes. *)
Record Browser : Type := mkBrowser {
  body : list Node;               (** the children of [document.body]; the
                                      elements above them carry no class *)
  nextUid : nat;                  (** identity of the next element created *)
  now : nat;                      (** the clock, in milliseconds *)
  timers : list Timer;            (** pending [setTimeout] callbacks *)
  console : list string;          (** lines written by [console.error] *)
  reads : list (string * ReadMode);
                                  (** [FileReader] reads started: file, mode *)
  newButtonHidden : bool;         (** the new-drawing button and its label *)
  fileInputContainer : option bool;
                                  (** [#fileInputContainer], if the page has
                                      one: does it carry class [loaded] *)
  loadingShown : bool             (** [#loading] is displayed *)
}.

Definition set_body f (b : Browser) :=
  mkBrowser (f (body b)) (nextUid b) (now b) (timers b) (console b) (reads b)
            (newButtonHidden b) (fileInputContainer b) (loadingShown b).
Definition set_nextUid f (b : Browser) :=
  mkBrowser (body b) (f (nextUid b)) (now b) (timers b) (console b) (reads b)
            (newButtonHidden b) (fileInputContainer b) (loadingShown b).
Definition set_now f (b : Browser) :=
  mkBrowser (body b) (nextUid b) (f (now b)) (timers b) (console b) (reads b)
            (newButtonHidden b) (fileInputContainer b) (loadingShown b).
Definition set_timers f (b : Browser) :=
  mkBrowser (body b) (nextUid b) (now b) (f (timers b)) (console b) (reads b)
            (newButtonHidden b) (fileInputContainer b) (loadingShown b).
Definition set_console f (b : Browser) :=
  mkBrowser (body b) (nextUid b) (now b) (timers b) (f (console b)) (reads b)
            (newButtonHidden b) (fileInputContainer b) (loadingShown b).
Definition set_reads f (b : Browser) :=
  mkBrowser (body b) (nextUid b) (now b) (timers b) (console b) (f (reads b))
            (newButtonHidden b) (fileInputContainer b) (loadingShown b).
Definition set_newButtonHidden f (b : Browser) :=
  mkBrowser (body b) (nextUid b) (now b) (timers b) (console b) (reads b)
            (f (newButtonHidden b)) (fileInputContainer b) (loadingShown b).
Definition set_fileInputContainer f (b : Browser) :=
  mkBrowser (body b) (nextUid b) (now b) (timers b) (console b) (reads b)
            (newButtonHidden b) (f (fileInputContainer b)) (loadingShown b).
Definition set_loadingShown f (b : Browser) :=
  mkBrowser (body b) (nextUid b) (now b) (timers b) (console b) (reads b)
            (newButtonHidden b) (fileInputContainer b) (f (loadingShown b)).

(** ** The viewer runtime (package [@mlightcad/cad-simple-viewer]) *)

Inductive FileContent : Type :=
| Text (s : string)                    (** result of [readAsText] *)
| ArrayBuffer (bytes : list Byte.byte). (** result of [readAsArrayBuffer] *)

Record AcDbOpenDatabaseOptions : Type := mkOpenOptions {
  minimumChunkSize : nat;
  readOnly : bool
}.

(** The document manager, as far as the application can tell: the
    commands registered with it (group, global name, local name), whether
    it has a current document, and the example drawings created in it. *)
Record AcApDocManager : Type := mkDocManager {
  commands : list (string * string * string);
  curDocument : bool;      (** [curDocument] is defined *)
  exampleDocs : nat
}.

Record Runtime : Type := mkRuntime {
  instance : option AcApDocManager;   (** [AcApDocManager.instance] *)
  constructions : nat;     (** runtimes [createInstance] has constructed *)
  localeInits : nat;       (** completed calls of [initializeLocale] *)
  openCalls : list (string * FileContent * AcDbOpenDatabaseOptions)
                           (** the calls of [openDocument], in order *)
}.

(** What the runtime does when called: each call of the package either
    throws (or rejects) or goes through; [openDocument] resolves with a
    success flag. *)
Record Env : Type := mkEnv {
  createInstance_outcome : Completion bool;
    (** a runtime is constructed, with or without a current document *)
  initializeLocale_outcome : Completion unit;
  addCommand_outcome : Completion unit;
  openDocument_outcome :
    string -> FileContent -> AcDbOpenDatabaseOptions -> Completion bool
}.

(** A file the user selects: its name, its bytes, and the error of the
    browser's reader on it, if reading it fails. *)
Record File : Type := mkFile {
  name : string;
  data : list Byte.byte;
  read_error : option string
}.

(** ** The whole state of the application *)

Record World : Type := mkWorld {
  isInitialized : bool;    (** [private isInitialized] (main.ts, line 11) *)
  browser : Browser;
  runtime : Runtime
}.

Definition set_isInitialized (v : bool) (w : World) :=
  mkWorld v (browser w) (runtime w).
Definition on_browser (f : Browser -> Browser) (w : World) :=
  mkWorld (isInitialized w) (f (browser w)) (runtime w).
Definition on_runtime (f : Runtime -> Runtime) (w : World) :=
  mkWorld (isInitialized w) (browser w) (f (runtime w)).
Definition on_instance (f : AcApDocManager -> AcApDocManager) (r : Runtime) :=
  mkRuntime (option_map f (instance r)) (constructions r) (localeInits r)
            (openCalls r).

(** The popup notifications in the document. *)
Definition popups (w : World) : list Attrs :=
  querySelectorAll is_popup (body (browser w)).

(** [try { m } catch (error) { h error }]. *)
Definition try_catch {S A} (m : Eff S A) (h : string -> Eff S A) : Eff S A :=
  fun s => match m s with
           | (Thrown e, s') => h e s'
           | r => r
           end.

(** [try { m } finally { f }], for an [f] that does not throw. *)
Definition try_finally {S A} (m : Eff S A) (f : S -> S) : Eff S A :=
  fun s => let '(r, s') := m s in (r, f s').

(** A call of the runtime with outcome [o]: it throws, or goes through
    with effect [f]. *)
Definition external {S A} (o : Completion A) (f : S -> S) : Eff S A :=
  fun s => match o with
           | Returned a => (Returned a, f s)
           | Thrown e => (Thrown e, s)
           end.

Local Open Scope eff_scope.
Local Open Scope string_scope.

(** ** main.ts, lines 157-208 (and 371-422): notifications *)

Inductive MessageType : Type := success | error | info.

Definition type_name (t : MessageType) : string :=
  match t with success => "success" | error => "error" | info => "info" end.

(** [clearMessages()], lines 205-208:
    [document.querySelectorAll('.popup-message').forEach(el => el.remove())]. *)
Definition clearMessages (w : World) : World :=
  on_browser (set_body (detach_all is_popup)) w.

(** The popup element that lines 165-191 create and style. *)
Definition new_popup (u : nat) (message : string) (type : MessageType) : Attrs :=
  let popup := mkAttrs u ["popup-message"; type_name type] message [] in
  let popup := set_style "position" "fixed" popup in
  let popup := set_style "top" "2rem" popup in
  let popup := set_style "left" "50%" popup in
  let popup := set_style "transform" "translateX(-50%)" popup in
  let popup := set_style "zIndex" "1000" popup in
  let popup := set_style "padding" "1rem 2rem" popup in
  let popup := set_style "borderRadius" "8px" popup in
  let popup := set_style "boxShadow" "0 2px 8px rgba(0,0,0,0.15)" popup in
  let popup := set_style "fontSize" "1.1rem" popup in
  let popup := set_style "opacity" "0.98" popup in
  let popup := set_style "transition" "opacity 0.2s" popup in
  match type with
  | error =>
      set_style "border" "1px solid #ffcccc"
        (set_style "color" "#dc3545" (set_style "background" "#ffe6e6" popup))
  | success =>
      set_style "border" "1px solid #ccffcc"
        (set_style "color" "#28a745" (set_style "background" "#e6ffe6" popup))
  | info =>
      set_style "border" "1px solid #ccc"
        (set_style "color" "#333" (set_style "background" "#f0f0f0" popup))
  end.

(** [setTimeout(callback, delay)]. *)
Definition setTimeout (t : Callback) (delay : nat) (b : Browser) : Browser :=
  set_timers (fun ts => (ts ++ [mkTimer (now b + delay) t])%list) b.

(** [showMessage(message, type)], lines 157-203. *)
Definition showMessage (message : string) (type : MessageType) (w : World)
  : World :=
  let w := clearMessages w in
  let u := nextUid (browser w) in
  let popup := new_popup u message type in
  let w := on_browser (set_nextUid S) w in
  let w := on_browser (set_body (fun b => (b ++ [Element popup []])%list)) w in
  on_browser (setTimeout (FadeOut u) 1000) w.

(** The two timer callbacks of lines 195-202. *)
Definition run_callback (t : Callback) (b : Browser) : Browser :=
  match t with
  | FadeOut u =>
      let b := set_body (map (restyle (is_uid u) (set_style "opacity" "0"))) b in
      setTimeout (Remove u) 200 b
  | Remove u =>
      (* [if (popup.parentNode) popup.parentNode.removeChild(popup)] *)
      set_body (detach_all (is_uid u)) b
  end.

(** The event loop takes the pending timer that is due first (the one
    registered first among equals) out of the list. *)
Fixpoint pick (ts : list Timer) : option (Timer * list Timer) :=
  match ts with
  | [] => None
  | t :: ts' =>
      match pick ts' with
      | Some (m, rest) =>
          if (due m <? due t)%nat then Some (m, t :: rest) else Some (t, ts')
      | None => Some (t, [])
      end
  end.

(** One turn of the event loop on the timer queue: the clock reaches the
    timer's due time and its callback runs. *)
Definition fire (w : World) : World :=
  match pick (timers (browser w)) with
  | None => w
  | Some (t, rest) =>
      on_browser (fun b =>
        run_callback (callback t)
          (set_now (Nat.max (due t)) (set_timers (fun _ => rest) b))) w
  end.

Fixpoint fire_n (n : nat) (w : World) : World :=
  match n with
  | O => w
  | S k => fire_n k (fire w)
  end.

(** [console.error(...)]. *)
Definition console_error (line : string) (w : World) : World :=
  on_browser (set_console (fun c => (c ++ [line])%list)) w.

(** [hideNewButton()], lines 65-73. *)
Definition hideNewButton (w : World) : World :=
  on_browser (set_newButtonHidden (fun _ => true)) w.

(** Lines 118-122: [fileInputContainer.classList.add('loaded')] when the
    page has that element. *)
Definition mark_loaded (w : World) : World :=
  on_browser (set_fileInputContainer (option_map (fun _ => true))) w.

(** [AcEdCommandStack.SYSTEMT_COMMAND_GROUP_NAME]: the value of the
    constant is the package's; the name stands for it. *)
Definition SYSTEMT_COMMAND_GROUP_NAME : string := "SYSTEMT_COMMAND_GROUP_NAME".

(** [AcApDocManager.instance.method(...)]: a [TypeError] when there is no
    instance. *)
Definition with_instance {A} (method : string)
    (k : AcApDocManager -> Eff World A) : Eff World A :=
  fun w =>
    match instance (runtime w) with
    | Some m => k m w
    | None =>
        (Thrown ("TypeError: Cannot read properties of undefined (reading '"
                 ++ method ++ "')"), w)
    end.

(** [AcApDocManager.instance.openDocument(name, content, options)]: the
    call is recorded; the runtime decides its outcome. *)
Definition openDocument (env : Env) (fileName : string) (content : FileContent)
    (options : AcDbOpenDatabaseOptions) : Eff World bool :=
  with_instance "openDocument" (fun _ w =>
    (openDocument_outcome env fileName content options,
     on_runtime (fun r =>
       mkRuntime (instance r) (constructions r) (localeInits r)
                 (openCalls r ++ [(fileName, content, options)])%list) w)).

(** [AcApDocManager.createInstance(...)]: the package constructs a
    runtime, or throws. *)
Definition createInstance (env : Env) : Eff World unit :=
  fun w =>
    match createInstance_outcome env with
    | Returned doc =>
        (Returned tt,
         on_runtime (fun r =>
           mkRuntime (Some (mkDocManager [] doc 0)) (S (constructions r))
                     (localeInits r) (openCalls r)) w)
    | Thrown e => (Thrown e, w)
    end.

(** [initializeLocale()] of [./i8n], a module that is not among the
    sources: its calls are counted. *)
Definition initializeLocale (env : Env) : Eff World unit :=
  external (initializeLocale_outcome env)
    (on_runtime (fun r =>
       mkRuntime (instance r) (constructions r) (S (localeInits r))
                 (openCalls r))).

(** What [FileReader] delivers for a file read in a mode: [onerror] with
    the reader's error, or [onload] with the text or the buffer. *)
Definition read_as (mode : ReadMode) (file : File) : Eff World FileContent :=
  fun w =>
    let w := on_browser (set_reads (fun r => (r ++ [(name file, mode)])%list)) w in
    match read_error file with
    | Some e => (Thrown e, w)
    | None =>
        (Returned (match mode with
                   | AsText => Text (string_of_list_byte (data file))
                   | AsArrayBuffer => ArrayBuffer (data file)
                   end), w)
    end.

(** ** main.ts, lines 1-218: the container-based application *)

Module CadViewerApp.

(** [registerCommands()], lines 44-52. *)
Definition registerCommands (env : Env) : Eff World unit :=
  with_instance "commandManager" (fun _ =>
    external (addCommand_outcome env)
      (on_runtime (on_instance (fun m =>
         mkDocManager
           (commands m ++ [(SYSTEMT_COMMAND_GROUP_NAME, "ellipse", "ellipse")])%list
           (curDocument m) (exampleDocs m))))).

(** [initialize()], lines 23-42. *)
Definition initialize (env : Env) : Eff World unit :=
  init <- gets isInitialized ;
  if negb init then
    try_catch
      (createInstance env ;;
       initializeLocale env ;;
       registerCommands env ;;
       modify (set_isInitialized true))
      (fun err =>
         modify (console_error ("Failed to initialize CAD viewer: " ++ err)) ;;
         modify (showMessage "Failed to initialize CAD viewer" error))
  else ret tt.

(** [readFile(file)], lines 148-155: always [readAsArrayBuffer]. *)
Definition readFile (file : File) : Eff World FileContent :=
  read_as AsArrayBuffer file.

(** [loadFile(file)], lines 101-146. *)
Definition loadFile (env : Env) (file : File) : Eff World unit :=
  initialize env ;;
  (* Validate file type *)
  let fileName := toLowerCase (name file) in
  if negb (endsWith fileName ".dxf") && negb (endsWith fileName ".dwg") then
    modify (showMessage "Please select a DXF or DWG file" error)
  else
    modify hideNewButton ;;
    modify clearMessages ;;
    try_catch
      (fileContent <- readFile file ;
       modify mark_loaded ;;
       let options := mkOpenOptions 1000 true in
       ok <- openDocument env (name file) fileContent options ;
       if ok : bool then
         modify (showMessage ("Successfully loaded: " ++ name file) success)
       else
         modify (showMessage ("Failed to load: " ++ name file) error))
      (fun e =>
         modify (console_error ("Error loading file: " ++ e)) ;;
         modify (showMessage ("Error loading file: " ++ e) error)).

(** The [change] listener of the file input, lines 56-62. *)
Definition onFileInputChange (env : Env) (files : list File) : Eff World unit :=
  match files with
  | file :: _ => loadFile env file
  | [] => ret tt
  end.

(** The [click] listener of the new-drawing button, lines 77-98.  The
    example drawing is created by [DocCreator], whose effect on the
    document is counted only. *)
Definition onNewDrawingClick (env : Env) : Eff World unit :=
  initialize env ;;
  docManager <- gets (fun w => instance (runtime w)) ;
  match docManager with
  | None => modify (showMessage "CAD viewer not initialized" error)
  | Some m =>
      if curDocument m then
        modify mark_loaded ;;
        modify (on_runtime (on_instance (fun m =>
          mkDocManager (commands m) (curDocument m) (S (exampleDocs m))))) ;;
        modify hideNewButton
      else ret tt
  end.

End CadViewerApp.

(** ** main.ts, lines 219-432: the canvas-based application *)

Module CanvasViewerApp.

(** [initializeViewer()], lines 244-252, called once by the constructor. *)
Definition initializeViewer (env : Env) : Eff World unit :=
  try_catch
    (createInstance env)
    (fun err =>
       modify (console_error ("Failed to initialize CAD viewer: " ++ err)) ;;
       modify (showMessage "Failed to initialize CAD viewer" error)).

(** [showLoading(show)], lines 367-369. *)
Definition showLoading (show : bool) (w : World) : World :=
  on_browser (set_loadingShown (fun _ => show)) w.

(** [readFile(file)], lines 351-365: the mode follows the extension. *)
Definition readFile (file : File) : Eff World FileContent :=
  let fileName := toLowerCase (name file) in
  if endsWith fileName ".dxf" then read_as AsText file
  else if endsWith fileName ".dwg" then read_as AsArrayBuffer file
  else throw "Error: Unsupported file type".

(** [loadFile(file)], lines 299-349. *)
Definition loadFile (env : Env) (file : File) : Eff World unit :=
  docManager <- gets (fun w => instance (runtime w)) ;
  match docManager with
  | None => modify (showMessage "CAD viewer not initialized" error)
  | Some _ =>
      (* Validate file type *)
      let fileName := toLowerCase (name file) in
      if negb (endsWith fileName ".dxf") && negb (endsWith fileName ".dwg") then
        modify (showMessage "Please select a DXF or DWG file" error)
      else
        modify (showLoading true) ;;
        modify clearMessages ;;
        try_finally
          (try_catch
             (fileContent <- readFile file ;
              modify mark_loaded ;;
              let options := mkOpenOptions 1000 true in
              ok <- openDocument env (name file) fileContent options ;
              if ok : bool then
                modify (showMessage ("Successfully loaded: " ++ name file) success)
              else
                modify (showMessage ("Failed to load: " ++ name file) error))
             (fun e =>
                modify (console_error ("Error loading file: " ++ e)) ;;
                modify (showMessage ("Error loading file: " ++ e) error)))
          (showLoading false)
  end.

(** The [change] listener of the file input, lines 256-262. *)
Definition onFileInputChange (env : Env) (files : list File) : Eff World unit :=
  match files with
  | file :: _ => loadFile env file
  | [] => ret tt
  end.

End CanvasViewerApp.

Local Close Scope string_scope.
Local Close Scope eff_scope.

(** ** main.ts, lines 265-297: the click listener of the canvas-based
    application *)

Local Open Scope eff_scope.
Local Open Scope string_scope.


Local Close Scope string_scope.
Local Close Scope eff_scope.

(** ** What can happen on the page, one turn of the event loop at a time *)

Inductive Action : Type :=
| ShowMessage (message : string) (type : MessageType)
| ClearMessages
| TimerFires
| Initialize (env : Env)
| FileSelected (env : Env) (files : list File)
| NewDrawingClicked (env : Env)
| CanvasStarted (env : Env)
| CanvasFileSelected (env : Env) (files : list File).

Definition perform (a : Action) (w : World) : World :=
  match a with
  | ShowMessage message type => showMessage message type w
  | ClearMessages => clearMessages w
  | TimerFires => fire w
  | Initialize env => (CadViewerApp.initialize env w).2
  | FileSelected env files => (CadViewerApp.onFileInputChange env files w).2
  | NewDrawingClicked env => (CadViewerApp.onNewDrawingClick env w).2
  | CanvasStarted env => (CanvasViewerApp.initializeViewer env w).2
  | CanvasFileSelected env files =>
      (CanvasViewerApp.onFileInputChange env files w).2
  end.

Definition perform_all (actions : list Action) (w : World) : World :=
  fold_left (fun w a => perform a w) actions w.

(** ** Extensions, as the specification words them *)

(** A character of a file name spells the character [d] of an extension
    when it is [d] itself or, [d] being a small letter, its capital. *)
Definition spells (c d : ascii) : Prop :=
  c = d \/
  (97 <= nat_of_ascii d <= 122 /\ nat_of_ascii c + 32 = nat_of_ascii d).

Fixpoint spelled (s ext : string) : Prop :=
  match s, ext with
  | EmptyString, EmptyString => True
  | String c s', String d ext' => spells c d /\ spelled s' ext'
  | _, _ => False
  end.

(** The name ends in the extension, case-insensitively. *)
Definition has_extension (file_name ext : string) : Prop :=
  exists stem suffix : string,
    file_name = (stem ++ suffix)%string /\ spelled suffix ext.

(** ** The stages of a file load *)

Local Open Scope string_scope.

(** The state in which the read of an accepted file starts (main.ts, lines
    111-116), and the one in which [openDocument] is called (lines
    118-131). *)
Definition reading (mode : ReadMode) (file : File) (w : World) : World :=
  on_browser (set_reads (fun r => (r ++ [(name file, mode)])%list)) w.

Definition opening (content : FileContent) (file : File) (w : World) : World :=
  on_runtime (fun r =>
    mkRuntime (instance r) (constructions r) (localeInits r)
      (openCalls r ++ [(name file, content, mkOpenOptions 1000 true)])%list)
    (mark_loaded w).

Definition valid_name (file : File) : bool :=
  endsWith (toLowerCase (name file)) ".dxf"
  || endsWith (toLowerCase (name file)) ".dwg".

(** The mode in which the canvas-based application reads an accepted
    file (main.ts, lines 356-360), and what a read in a mode delivers. *)
Definition canvas_mode (file : File) : ReadMode :=
  if endsWith (toLowerCase (name file)) ".dxf" then AsText else AsArrayBuffer.

Definition content_of (mode : ReadMode) (file : File) : FileContent :=
  match mode with
  | AsText => Text (string_of_list_byte (data file))
  | AsArrayBuffer => ArrayBuffer (data file)
  end.

Local Close Scope string_scope.

(** ** Sample runtime, page and files *)

(** A runtime whose calls all go through, and that opens what it is given. *)
Definition obliging : Env :=
  mkEnv (Returned true) (Returned tt) (Returned tt) (fun _ _ _ => Returned true).

(** A runtime that cannot be constructed. *)
Definition broken : Env :=
  mkEnv (Thrown "Error: no WebGL"%string) (Returned tt) (Returned tt)
        (fun _ _ _ => Returned true).

(** A runtime that fails to open what it is given. *)
Definition unable : Env :=
  mkEnv (Returned true) (Returned tt) (Returned tt) (fun _ _ _ => Returned false).

(** The page as it is loaded: nothing shown, nothing pending, no runtime. *)
Definition fresh : World :=
  mkWorld false
    (mkBrowser [] 0 0 [] [] [] false (Some false) false)
    (mkRuntime None 0 0 []).

(** ** Measures and invariants used in the proofs *)

(** A step is tidy when it leaves at most one popup, or no more than it
    found. *)
Definition tidy (f : World -> World) : Prop :=
  forall w, length (popups (f w)) <= Nat.max 1 (length (popups w)).

Definition tidy_eff {A} (c : Eff World A) : Prop := tidy (fun w => (c w).2).

(** The turns of the event loop a timer still costs: fading schedules the
    removal. *)
Definition weight (ts : list Timer) : nat :=
  sum_list_with (fun t => match callback t with FadeOut _ => 2 | Remove _ => 1 end) ts.

(** A timer of the popup [p] is pending. *)
Definition pending (p : nat) (ts : list Timer) : Prop :=
  exists t, In t ts /\ (callback t = FadeOut p \/ callback t = Remove p).

(** The popup [p] is on its way out: it is the only popup the document can
    hold, and while it is in the document one of its timers is pending. *)
Definition dismissing (p : nat) (w : World) : Prop :=
  Forall (fun a => uid a = p) (popups w) /\
  (querySelectorAll (is_uid p) (body (browser w)) <> [] ->
   pending p (timers (browser w))).


(** * Properties of the ellipse command *)

Section EllipseFacts.

Implicit Types (s : Session) (j : AcApEllipseJig.t) (e : AcDbEllipse).

Lemma previewed_fields vs e :
  center (previewed vs e) = center e /\
  normal (previewed vs e) = normal e /\
  majorAxis (previewed vs e) = majorAxis e /\
  majorAxisRadius (previewed vs e) = majorAxisRadius e /\
  startAngle (previewed vs e) = startAngle e /\
  endAngle (previewed vs e) = endAngle e.
Proof.
  revert e. induction vs as [|v vs IH]; intros e; [easy|].
  destruct (IH (set_minorAxisRadius v e)) as (?&?&?&?&?&?).
  unfold previewed in *. cbn in *. repeat split; assumption.
Qed.

Lemma set_minor_previewed v vs e :
  set_minorAxisRadius v (previewed vs e) = set_minorAxisRadius v e.
Proof.
  destruct (previewed_fields vs e) as (H1&H2&H3&H4&H5&H6).
  unfold set_minorAxisRadius. now rewrite H1, H2, H3, H4, H5, H6.
Qed.

(** Running the candidates through the jig touches the jig's object only. *)
Lemma preview_run j vs os ms ins e :
  AcApEllipseJig._ellipse j = length os ->
  preview j vs (mkSession (os ++ [e]) ms ins)
  = (Returned tt, mkSession (os ++ [previewed vs e]) ms ins).
Proof.
  intros Hj. revert e. induction vs as [|v vs IH]; intros e; [reflexivity|].
  cbn [preview]. unfold bind, AcApEllipseJig.update, modify, set_objects. cbn.
  rewrite Hj, <- (Nat.add_0_r (length os)), alter_app_r. cbn. apply IH.
Qed.

End EllipseFacts.

Lemma bind_run {S A B} (m : Eff S A) (k : A -> Eff S B) s a s' :
  m s = (Returned a, s') -> bind m k s = k a s'.
Proof. unfold bind. now intros ->. Qed.

Lemma getPoint_run o os ms p rest :
  getPoint o (mkSession os ms (PickPoint p :: rest))
  = (Returned p, mkSession os ms rest).
Proof. reflexivity. Qed.

Lemma new_AcDbEllipse_run c n a major minor st en os ms ins :
  new_AcDbEllipse c n a major minor st en (mkSession os ms ins)
  = (Returned (length os),
     mkSession (os ++ [mkEllipse c n a major minor st en]) ms ins).
Proof. reflexivity. Qed.

Lemma jig_new_run view c p os ms ins :
  AcApEllipseJig.new view c p (mkSession os ms ins)
  = (Returned (AcApEllipseJig.mk view (length os)),
     mkSession
       (os ++ [mkEllipse c AcGeVector3d.Z_AXIS
                 (AcGeVector3d.normalize (axis_vector c p))
                 (AcGeVector3d.length (axis_vector c p))
                 (AcGeVector3d.length (axis_vector c p))
                 0 (Math_PI * 2)])
       ms ins).
Proof. reflexivity. Qed.

Lemma getDistance_run msg dashed base j os e ms vs r rest :
  AcApEllipseJig._ellipse j = length os ->
  getDistance (mkDistanceOptions msg dashed base (Some j))
    (mkSession (os ++ [e]) ms (EnterDistance vs r :: rest))
  = (Returned r, mkSession (os ++ [previewed vs e]) ms rest).
Proof.
  intros Hj. unfold getDistance. cbn [inputs ds_jig set_inputs objects modelSpace].
  erewrite bind_run by (apply preview_run; exact Hj). reflexivity.
Qed.

Lemma build_run c p r os ms ins :
  AcApEllipseCmd.build c p r (mkSession os ms ins)
  = (Returned (length os),
     mkSession
       (os ++ [mkEllipse c AcGeVector3d.Z_AXIS
                 (AcGeVector3d.normalize (axis_vector c p))
                 (AcGeVector3d.length (axis_vector c p))
                 r 0 (Math_PI * 2)])
       ms ins).
Proof. reflexivity. Qed.

(** What the command does on a script of three answers: the jig's
    preview object is allocated first, the committed one after it. *)
Lemma execute_with_jig_run ctx os ms c p vs r rest :
  AcApEllipseCmd.execute_with_jig ctx
    (mkSession os ms (PickPoint c :: PickPoint p :: EnterDistance vs r :: rest))
  = (Returned (AcApEllipseJig.mk (ctx_view ctx) (length os)),
     mkSession
       ((os ++ [previewed vs
                 (mkEllipse c AcGeVector3d.Z_AXIS
                    (AcGeVector3d.normalize (axis_vector c p))
                    (AcGeVector3d.length (axis_vector c p))
                    (AcGeVector3d.length (axis_vector c p))
                    0 (Math_PI * 2))])
           ++ [mkEllipse c AcGeVector3d.Z_AXIS
                 (AcGeVector3d.normalize (axis_vector c p))
                 (AcGeVector3d.length (axis_vector c p))
                 r 0 (Math_PI * 2)])
       (ms ++ [S (length os)])
       rest).
Proof.
  unfold AcApEllipseCmd.execute_with_jig.
  erewrite bind_run by apply getPoint_run.
  erewrite bind_run by apply getPoint_run.
  erewrite bind_run by apply jig_new_run.
  erewrite bind_run by (apply getDistance_run; reflexivity).
  erewrite bind_run by apply build_run.
  unfold bind, appendEntity, modify, ret, set_modelSpace.
  cbn [objects modelSpace inputs].
  rewrite length_app. cbn [length]. rewrite Nat.add_1_r. reflexivity.
Qed.

Lemma execute_run ctx os ms c p vs r rest :
  AcApEllipseCmd.execute ctx
    (mkSession os ms (PickPoint c :: PickPoint p :: EnterDistance vs r :: rest))
  = (Returned tt,
     mkSession
       ((os ++ [previewed vs
                 (mkEllipse c AcGeVector3d.Z_AXIS
                    (AcGeVector3d.normalize (axis_vector c p))
                    (AcGeVector3d.length (axis_vector c p))
                    (AcGeVector3d.length (axis_vector c p))
                    0 (Math_PI * 2))])
           ++ [mkEllipse c AcGeVector3d.Z_AXIS
                 (AcGeVector3d.normalize (axis_vector c p))
                 (AcGeVector3d.length (axis_vector c p))
                 r 0 (Math_PI * 2)])
       (ms ++ [S (length os)])
       rest).
Proof.
  unfold AcApEllipseCmd.execute.
  erewrite bind_run by apply execute_with_jig_run. reflexivity.
Qed.

Lemma lookup_committed {A} (os : list A) (x y : A) :
  ((os ++ [x]) ++ [y]) !! S (length os) = Some y.
Proof.
  rewrite lookup_app_r by (rewrite length_app; cbn; lia).
  rewrite length_app. cbn [length].
  now replace (S (length os) - (length os + 1)) with 0 by lia.
Qed.

(** C1. For every center P0, major-axis endpoint P1 distinct from P0 and
    prompted minor radius r, [execute] returns normally and appends to model
    space one ellipse with center P0, normal the Z axis, major-axis
    direction normalize(P1 - P0), major radius |P1 - P0|, minor radius r and
    sweep 0 to 2 pi; for P0 = (0,0,0), P1 = (0,100,0), r = 25 the major
    radius is 100 and the minor radius 25. *)
Theorem execute_appends_ellipse
    (context : AcApContext) (s : Session) (P0 P1 : AcGePoint3d)
    (candidates : list float) (r : float) (rest : list UserInput) :
  inputs s = PickPoint P0 :: PickPoint P1 :: EnterDistance candidates r :: rest ->
  same_point P1 P0 = false ->
  exists (s' : Session) (entity : ref) (e : AcDbEllipse),
    AcApEllipseCmd.execute context s = (Returned tt, s') /\
    modelSpace s' = modelSpace s ++ [entity] /\
    inputs s' = rest /\
    objects s' !! entity = Some e /\
    center e = P0 /\
    normal e = AcGeVector3d.Z_AXIS /\
    majorAxis e = AcGeVector3d.normalize (axis_vector P0 P1) /\
    majorAxisRadius e = AcGeVector3d.length (axis_vector P0 P1) /\
    minorAxisRadius e = r /\
    startAngle e = 0%float /\
    endAngle e = (Math_PI * 2)%float /\
    (P0 = mkPoint 0 0 0 -> P1 = mkPoint 0 100 0 -> r = 25%float ->
     majorAxisRadius e = 100%float /\ minorAxisRadius e = 25%float).
Proof.
  intros Hin _. destruct s as [os ms ins]. cbn in Hin. subst ins.
  eexists _, (S (length os)), _. rewrite execute_run.
  split; [reflexivity|]. split; [reflexivity|]. split; [reflexivity|].
  split; [apply lookup_committed|]. cbn.
  repeat (split; [reflexivity|]).
  intros -> -> ->. split; reflexivity.
Qed.

Lemma execute_appends_ellipse_witness :
  exists (s' : Session) (entity : ref) (e : AcDbEllipse),
    AcApEllipseCmd.execute (mkContext 0)
      (mkSession [] []
         [PickPoint (mkPoint 0 0 0); PickPoint (mkPoint 0 100 0);
          EnterDistance [10%float; 30%float] 25]) = (Returned tt, s') /\
    modelSpace s' = [] ++ [entity] /\
    inputs s' = [] /\
    objects s' !! entity = Some e /\
    center e = mkPoint 0 0 0 /\
    normal e = AcGeVector3d.Z_AXIS /\
    majorAxis e
      = AcGeVector3d.normalize (axis_vector (mkPoint 0 0 0) (mkPoint 0 100 0)) /\
    majorAxisRadius e
      = AcGeVector3d.length (axis_vector (mkPoint 0 0 0) (mkPoint 0 100 0)) /\
    minorAxisRadius e = 25%float /\
    startAngle e = 0%float /\
    endAngle e = (Math_PI * 2)%float /\
    (mkPoint 0 0 0 = mkPoint 0 0 0 -> mkPoint 0 100 0 = mkPoint 0 100 0 ->
     25%float = 25%float ->
     majorAxisRadius e = 100%float /\ minorAxisRadius e = 25%float).
Proof.
  apply (execute_appends_ellipse (mkContext 0)
           (mkSession [] []
              [PickPoint (mkPoint 0 0 0); PickPoint (mkPoint 0 100 0);
               EnterDistance [10%float; 30%float] 25])
           (mkPoint 0 0 0) (mkPoint 0 100 0) [10%float; 30%float] 25 []).
  - reflexivity.
  - reflexivity.
Defined.





(** C7. [update(v)] returns normally and changes only the minor-axis radius
    of the jig's preview ellipse, to v: its center, normal, major-axis
    direction, major radius and sweep, every other object, the model space
    and the pending input are as before. *)
Theorem jig_update_changes_minor_radius_only
    (j : AcApEllipseJig.t) (v : float) (s : Session) (e : AcDbEllipse) :
  AcApEllipseJig.entity j s = Some e ->
  exists (s' : Session) (e' : AcDbEllipse),
    AcApEllipseJig.update j v s = (Returned tt, s') /\
    AcApEllipseJig.entity j s' = Some e' /\
    minorAxisRadius e' = v /\
    center e' = center e /\
    normal e' = normal e /\
    majorAxis e' = majorAxis e /\
    majorAxisRadius e' = majorAxisRadius e /\
    startAngle e' = startAngle e /\
    endAngle e' = endAngle e /\
    (forall r : ref, r <> AcApEllipseJig._ellipse j ->
       objects s' !! r = objects s !! r) /\
    modelSpace s' = modelSpace s /\
    inputs s' = inputs s.
Proof.
  unfold AcApEllipseJig.entity. intros He.
  exists (set_objects
            (alter (set_minorAxisRadius v) (AcApEllipseJig._ellipse j)) s),
         (set_minorAxisRadius v e).
  split; [reflexivity|]. cbn [set_objects objects modelSpace inputs].
  split; [now rewrite list_lookup_alter_eq, He|].
  do 7 (split; [reflexivity|]).
  split; [|split; reflexivity].
  intros r Hr. apply list_lookup_alter_ne. congruence.
Qed.

Lemma jig_update_changes_minor_radius_only_witness :
  exists (s' : Session) (e' : AcDbEllipse),
    AcApEllipseJig.update (AcApEllipseJig.mk 7 0) 25
      (mkSession
         [mkEllipse (mkPoint 0 0 0) AcGeVector3d.Z_AXIS (AcGeVector3d.mk 0 1 0)
            100 100 0 (Math_PI * 2)] [] []) = (Returned tt, s') /\
    AcApEllipseJig.entity (AcApEllipseJig.mk 7 0) s' = Some e' /\
    minorAxisRadius e' = 25%float /\
    center e' = mkPoint 0 0 0 /\
    normal e' = AcGeVector3d.Z_AXIS /\
    majorAxis e' = AcGeVector3d.mk 0 1 0 /\
    majorAxisRadius e' = 100%float /\
    startAngle e' = 0%float /\
    endAngle e' = (Math_PI * 2)%float.
Proof.
  destruct (jig_update_changes_minor_radius_only
              (AcApEllipseJig.mk 7 0) 25
              (mkSession
                 [mkEllipse (mkPoint 0 0 0) AcGeVector3d.Z_AXIS
                    (AcGeVector3d.mk 0 1 0) 100 100 0 (Math_PI * 2)] [] [])
              (mkEllipse (mkPoint 0 0 0) AcGeVector3d.Z_AXIS
                 (AcGeVector3d.mk 0 1 0) 100 100 0 (Math_PI * 2))
              eq_refl)
    as (s' & e' & H1 & H2 & H3 & H4 & H5 & H6 & H7 & H8 & H9 & _).
  exists s', e'. repeat (split; [assumption|]). assumption.
Defined.

(** C8. For every center and major-axis endpoint, the jig's constructor
    returns normally and its preview ellipse, before any update, has minor
    radius equal to its major radius, both |P1 - P0|. *)
Theorem jig_initial_preview_is_circle
    (view : nat) (P0 P1 : AcGePoint3d) (s : Session) :
  exists (j : AcApEllipseJig.t) (s' : Session) (e : AcDbEllipse),
    AcApEllipseJig.new view P0 P1 s = (Returned j, s') /\
    AcApEllipseJig.entity j s' = Some e /\
    minorAxisRadius e = majorAxisRadius e /\
    majorAxisRadius e = AcGeVector3d.length (axis_vector P0 P1).
Proof.
  destruct s as [os ms ins]. eexists _, _, _. rewrite jig_new_run.
  split; [reflexivity|]. unfold AcApEllipseJig.entity. cbn.
  rewrite lookup_app_r, Nat.sub_diag by lia. cbn.
  split; [reflexivity|]. split; reflexivity.
Qed.

(** C9. The ellipse [execute] commits is a new object, not the jig's, and
    it has the values of the jig's preview ellipse after [update(r)]: once
    the jig is updated with the committed radius r, its preview ellipse and
    the committed ellipse agree in center, normal, major-axis direction,
    major radius, minor radius and sweep. *)
Theorem committed_ellipse_equals_preview
    (context : AcApContext) (s : Session) (P0 P1 : AcGePoint3d)
    (candidates : list float) (r : float) (rest : list UserInput) :
  inputs s = PickPoint P0 :: PickPoint P1 :: EnterDistance candidates r :: rest ->
  exists (jig : AcApEllipseJig.t) (s' : Session) (committed : ref)
         (e : AcDbEllipse),
    AcApEllipseCmd.execute_with_jig context s = (Returned jig, s') /\
    AcApEllipseCmd.execute context s = (Returned tt, s') /\
    modelSpace s' = modelSpace s ++ [committed] /\
    objects s' !! committed = Some e /\
    committed <> AcApEllipseJig._ellipse jig /\
    AcApEllipseJig.entity jig (AcApEllipseJig.update jig r s').2 = Some e /\
    objects (AcApEllipseJig.update jig r s').2 !! committed = Some e.
Proof.
  intros Hin. destruct s as [os ms ins]. cbn in Hin. subst ins.
  eexists _, _, (S (length os)), _.
  rewrite execute_with_jig_run, execute_run.
  split; [reflexivity|]. split; [reflexivity|]. split; [reflexivity|].
  cbn [objects AcApEllipseJig._ellipse].
  split; [apply lookup_committed|]. split; [lia|].
  unfold AcApEllipseJig.entity, AcApEllipseJig.update, modify, set_objects.
  cbn [snd objects AcApEllipseJig._ellipse].
  split.
  - rewrite list_lookup_alter_eq.
    rewrite lookup_app_l by (rewrite length_app; cbn; lia).
    rewrite lookup_app_r, Nat.sub_diag by lia. cbn.
    now rewrite set_minor_previewed.
  - rewrite list_lookup_alter_ne by lia. apply lookup_committed.
Qed.

Lemma committed_ellipse_equals_preview_witness :
  exists (jig : AcApEllipseJig.t) (s' : Session) (committed : ref)
         (e : AcDbEllipse),
    AcApEllipseCmd.execute_with_jig (mkContext 0)
      (mkSession [] []
         [PickPoint (mkPoint 0 0 0); PickPoint (mkPoint 0 100 0);
          EnterDistance [10%float; 30%float] 25]) = (Returned jig, s') /\
    AcApEllipseCmd.execute (mkContext 0)
      (mkSession [] []
         [PickPoint (mkPoint 0 0 0); PickPoint (mkPoint 0 100 0);
          EnterDistance [10%float; 30%float] 25]) = (Returned tt, s') /\
    modelSpace s' = [] ++ [committed] /\
    objects s' !! committed = Some e /\
    committed <> AcApEllipseJig._ellipse jig /\
    AcApEllipseJig.entity jig (AcApEllipseJig.update jig 25 s').2 = Some e /\
    objects (AcApEllipseJig.update jig 25 s').2 !! committed = Some e.
Proof.
  apply (committed_ellipse_equals_preview (mkContext 0)
           (mkSession [] []
              [PickPoint (mkPoint 0 0 0); PickPoint (mkPoint 0 100 0);
               EnterDistance [10%float; 30%float] 25])
           (mkPoint 0 0 0) (mkPoint 0 100 0) [10%float; 30%float] 25 []).
  reflexivity.
Defined.

Section Dom.

Implicit Types (sel q : Attrs -> bool) (f : list Node) (n : Node).

Lemma sublist_filter {A} (p : A -> bool) (l1 l2 : list A) :
  sublist l1 l2 -> sublist (List.filter p l1) (List.filter p l2).
Proof.
  induction 1 as [|x l1 l2 _ IH|x l1 l2 _ IH]; cbn.
  - constructor.
  - destruct (p x); [now constructor|exact IH].
  - destruct (p x); [now constructor|exact IH].
Qed.

Lemma Forall_of_sublist {A} (P : A -> Prop) (l1 l2 : list A) :
  sublist l1 l2 -> Forall P l2 -> Forall P l1.
Proof.
  induction 1 as [|x l1 l2 _ IH|x l1 l2 _ IH]; intros H.
  - constructor.
  - apply Forall_cons in H as [Hx H]. apply Forall_cons. split; auto.
  - apply Forall_cons in H as [_ H]. auto.
Qed.

Lemma attrs_detach sel n : attrs (detach sel n) = attrs n.
Proof. now destruct n. Qed.

(** Detaching leaves a sub-sequence of the elements, none of them selected. *)
Lemma detach_all_spec sel f :
  Forall (fun n => sublist (List.tl (elements (detach sel n))) (List.tl (elements n))
                   /\ Forall (fun a => sel a = false) (List.tl (elements (detach sel n)))) f ->
  sublist (all_elements (detach_all sel f)) (all_elements f)
  /\ Forall (fun a => sel a = false) (all_elements (detach_all sel f)).
Proof.
  unfold all_elements, detach_all.
  induction 1 as [|n f [Hs Hf] _ [IHs IHf]]; cbn; [split; constructor|].
  rewrite attrs_detach.
  destruct n as [a ch]. cbn in Hs, Hf. cbn [attrs elements detach].
  destruct (sel a) eqn:Ha; cbn.
  - split; [|exact IHf].
    constructor. apply sublist_inserts_l. exact IHs.
  - split.
    + constructor. now apply sublist_app.
    + constructor; [exact Ha|]. apply Forall_app. now split.
Qed.

Lemma detach_spec sel n :
  sublist (List.tl (elements (detach sel n))) (List.tl (elements n))
  /\ Forall (fun a => sel a = false) (List.tl (elements (detach sel n))).
Proof.
  induction n as [a ch IH] using Node_ind. cbn [detach elements List.tl].
  apply (detach_all_spec sel ch IH).
Qed.

Lemma detach_all_sublist sel f :
  sublist (all_elements (detach_all sel f)) (all_elements f).
Proof.
  apply detach_all_spec, Forall_forall. intros n _. apply detach_spec.
Qed.

Lemma detach_all_clean sel f :
  Forall (fun a => sel a = false) (all_elements (detach_all sel f)).
Proof.
  apply detach_all_spec, Forall_forall. intros n _. apply detach_spec.
Qed.

Lemma filter_none {A} (p : A -> bool) (l : list A) :
  Forall (fun a => p a = false) l -> List.filter p l = [].
Proof.
  induction 1 as [|x l Hx _ IH]; cbn; [reflexivity|]. now rewrite Hx.
Qed.

(** After [forEach(el => el.remove())] the selector finds nothing. *)
Lemma querySelectorAll_detach_all sel f :
  querySelectorAll sel (detach_all sel f) = [].
Proof. apply filter_none, detach_all_clean. Qed.

(** Detaching by one selector only shrinks what another one finds. *)
Lemma querySelectorAll_detach_sublist q sel f :
  sublist (querySelectorAll q (detach_all sel f)) (querySelectorAll q f).
Proof. apply sublist_filter, detach_all_sublist. Qed.

Lemma querySelectorAll_app q f1 f2 :
  querySelectorAll q (f1 ++ f2) = querySelectorAll q f1 ++ querySelectorAll q f2.
Proof.
  unfold querySelectorAll, all_elements. now rewrite map_app, concat_app, List.filter_app.
Qed.

(** Restyling rewrites the found elements in place when it cannot change
    what the selector tests. *)
Lemma elements_restyle sel g n :
  elements (restyle sel g n)
  = map (fun a => if sel a then g a else a) (elements n).
Proof.
  induction n as [a ch IH] using Node_ind. cbn. f_equal.
  induction IH as [|x l Hx _ IHl]; cbn; [reflexivity|].
  now rewrite map_app, Hx, IHl.
Qed.

Lemma all_elements_restyle sel g f :
  all_elements (map (restyle sel g) f)
  = map (fun a => if sel a then g a else a) (all_elements f).
Proof.
  unfold all_elements. induction f as [|n f IH]; cbn; [reflexivity|].
  now rewrite map_app, elements_restyle, IH.
Qed.

Lemma filter_map_stable {A} (q : A -> bool) (h : A -> A) (l : list A) :
  (forall a, q (h a) = q a) ->
  List.filter q (map h l) = map h (List.filter q l).
Proof.
  intros Hq. induction l as [|x l IH]; cbn; [reflexivity|].
  rewrite Hq. destruct (q x); cbn; now rewrite IH.
Qed.

Lemma querySelectorAll_restyle q sel g f :
  (forall a, q (g a) = q a) ->
  querySelectorAll q (map (restyle sel g) f)
  = map (fun a => if sel a then g a else a) (querySelectorAll q f).
Proof.
  intros Hq. unfold querySelectorAll.
  rewrite all_elements_restyle. apply filter_map_stable.
  intros a. destruct (sel a); [apply Hq|reflexivity].
Qed.

End Dom.

Section Strings.

Local Open Scope string_scope.

Implicit Types (s t ext : string) (c d : ascii).

Lemma length_toLowerCase s : String.length (toLowerCase s) = String.length s.
Proof. induction s as [|c s IH]; cbn; congruence. Qed.

Lemma toLowerCase_app s t : toLowerCase (s ++ t) = toLowerCase s ++ toLowerCase t.
Proof. induction s as [|c s IH]; cbn; congruence. Qed.

Lemma string_length_app s t :
  String.length (s ++ t) = String.length s + String.length t.
Proof. induction s as [|c s IH]; cbn; congruence. Qed.

Lemma substring_all s : substring 0 (String.length s) s = s.
Proof. induction s as [|c s IH]; cbn; congruence. Qed.

Lemma substring_skip s t :
  substring (String.length s) (String.length t) (s ++ t) = t.
Proof. induction s as [|c s IH]; cbn; [apply substring_all|exact IH]. Qed.

Lemma substring_split n s :
  n <= String.length s ->
  s = substring 0 n s ++ substring n (String.length s - n) s.
Proof.
  revert s. induction n as [|n IH]; intros s Hn.
  - rewrite Nat.sub_0_r, substring_all. now destruct s.
  - destruct s as [|c s]; cbn in *; [lia|]. f_equal. apply IH. lia.
Qed.

Lemma length_substring_tail n s :
  n <= String.length s ->
  String.length (substring n (String.length s - n) s) = String.length s - n.
Proof.
  revert s. induction n as [|n IH]; intros s Hn.
  - now rewrite Nat.sub_0_r, substring_all.
  - destruct s as [|c s]; cbn in *; [lia|]. apply IH. lia.
Qed.

(** [endsWith] finds exactly the strings that are something followed by
    the suffix. *)
Lemma endsWith_spec s suffix :
  endsWith s suffix = true <-> exists stem, s = stem ++ suffix.
Proof.
  unfold endsWith. rewrite andb_true_iff, Nat.leb_le, String.eqb_eq. split.
  - intros [Hlen Hsub].
    exists (substring 0 (String.length s - String.length suffix) s).
    pose proof (substring_split (String.length s - String.length suffix) s
                  ltac:(lia)) as H.
    replace (String.length s - (String.length s - String.length suffix))
      with (String.length suffix) in H by lia.
    now rewrite Hsub in H.
  - intros [stem ->]. rewrite string_length_app. split; [lia|].
    replace (String.length stem + String.length suffix - String.length suffix)
      with (String.length stem) by lia.
    apply substring_skip.
Qed.

Lemma app_split_length s1 t1 s2 t2 :
  s1 ++ t1 = s2 ++ t2 -> String.length t1 = String.length t2 ->
  s1 = s2 /\ t1 = t2.
Proof.
  revert s2. induction s1 as [|c s1 IH]; intros s2 H Hlen.
  - destruct s2 as [|c2 s2]; [easy|]. cbn in H. subst t1.
    cbn in Hlen. rewrite string_length_app in Hlen. lia.
  - destruct s2 as [|c2 s2]; cbn in H.
    + subst t2. cbn in Hlen. rewrite string_length_app in Hlen. lia.
    + injection H as -> H. destruct (IH s2 H Hlen) as [-> ->]. easy.
Qed.

Lemma lower_ascii_spells c d :
  lower_ascii d = d -> (lower_ascii c = d <-> spells c d).
Proof.
  unfold lower_ascii, spells. intros Hd.
  pose proof (nat_ascii_bounded c) as Hc. pose proof (nat_ascii_bounded d) as Hdb.
  assert (Hd' : ~ (65 <= nat_of_ascii d <= 90)).
  { intros [H1 H2]. apply Nat.leb_le in H1 as H1', H2 as H2'.
    rewrite H1', H2' in Hd. cbn in Hd.
    apply (f_equal nat_of_ascii) in Hd.
    rewrite nat_ascii_embedding in Hd by lia. lia. }
  clear Hd.
  destruct ((65 <=? nat_of_ascii c)%nat && (nat_of_ascii c <=? 90)%nat) eqn:Hup.
  - apply andb_prop in Hup as [H1 H2]. apply Nat.leb_le in H1, H2. split.
    + intros <-. right. rewrite nat_ascii_embedding by lia. lia.
    + intros [->|[_ H]]; [lia|]. rewrite H. apply ascii_nat_embedding.
  - split; [now left|]. intros [->|[Hr H]]; [reflexivity|].
    exfalso. apply andb_false_iff in Hup as [H1|H1]; apply Nat.leb_gt in H1; lia.
Qed.

Lemma toLowerCase_spelled s ext :
  toLowerCase ext = ext -> (toLowerCase s = ext <-> spelled s ext).
Proof.
  revert ext. induction s as [|c s IH]; intros [|d ext] Hext; cbn; try easy.
  cbn in Hext. injection Hext as Hd Hext.
  rewrite <- (IH ext Hext), <- (lower_ascii_spells c d Hd).
  split; [intros [= -> ->]; easy|intros [-> ->]; easy].
Qed.

Lemma spelled_length s ext : spelled s ext -> String.length s = String.length ext.
Proof.
  revert ext. induction s as [|c s IH]; intros [|d ext]; cbn; try easy.
  intros [_ H]. f_equal. now apply IH.
Qed.

(** The test of the code, [toLowerCase] then [endsWith], decides the
    specification's "ends in the extension, case-insensitively". *)
Lemma endsWith_toLowerCase_spec file_name ext :
  toLowerCase ext = ext ->
  endsWith (toLowerCase file_name) ext = true <-> has_extension file_name ext.
Proof.
  intros Hext. rewrite endsWith_spec. unfold has_extension. split.
  - intros [stem Hstem].
    assert (Hlen : String.length ext <= String.length file_name).
    { rewrite <- (length_toLowerCase file_name), Hstem, string_length_app. lia. }
    pose proof (substring_split (String.length file_name - String.length ext)
                  file_name ltac:(lia)) as Hsplit.
    set (a := substring 0 (String.length file_name - String.length ext) file_name) in *.
    set (b := substring (String.length file_name - String.length ext)
                (String.length file_name
                 - (String.length file_name - String.length ext)) file_name) in *.
    exists a, b. split; [exact Hsplit|].
    apply toLowerCase_spelled; [exact Hext|].
    rewrite Hsplit, toLowerCase_app in Hstem.
    apply app_split_length in Hstem; [easy|].
    rewrite length_toLowerCase. subst b.
    rewrite length_substring_tail; lia.
  - intros (stem & suffix & -> & Hsp).
    exists (toLowerCase stem). rewrite toLowerCase_app. f_equal.
    now apply toLowerCase_spelled.
Qed.

End Strings.

(** * Properties of the notifications *)

Section Notifications.

Implicit Types (w : World) (m : string) (t : MessageType).

Lemma is_popup_new_popup u m t : is_popup (new_popup u m t) = true.
Proof. now destruct t. Qed.

Lemma uid_new_popup u m t : uid (new_popup u m t) = u.
Proof. now destruct t. Qed.

Lemma textContent_new_popup u m t : textContent (new_popup u m t) = m.
Proof. now destruct t. Qed.

Lemma className_new_popup u m t :
  className (new_popup u m t) = ["popup-message"%string; type_name t].
Proof. now destruct t. Qed.

Lemma popups_clearMessages w : popups (clearMessages w) = [].
Proof. apply querySelectorAll_detach_all. Qed.

Lemma popups_showMessage m t w :
  popups (showMessage m t w) = [new_popup (nextUid (browser w)) m t].
Proof.
  unfold popups, showMessage. cbn -[querySelectorAll detach_all new_popup].
  rewrite querySelectorAll_app, querySelectorAll_detach_all.
  unfold querySelectorAll. cbn -[new_popup]. now rewrite is_popup_new_popup.
Qed.

Lemma tidy_same_body f :
  (forall w, body (browser (f w)) = body (browser w)) -> tidy f.
Proof. intros H w. unfold popups. rewrite H. lia. Qed.

Lemma tidy_showMessage m t : tidy (showMessage m t).
Proof. intros w. rewrite popups_showMessage. cbn. lia. Qed.

Lemma tidy_clearMessages : tidy clearMessages.
Proof. intros w. rewrite popups_clearMessages. cbn. lia. Qed.

Lemma popups_run_task_length callback b :
  length (querySelectorAll is_popup (body (run_callback callback b)))
  <= length (querySelectorAll is_popup (body b)).
Proof.
  destruct callback as [u|u]; cbn -[querySelectorAll detach_all restyle].
  - rewrite querySelectorAll_restyle by reflexivity. now rewrite length_map.
  - apply sublist_length, querySelectorAll_detach_sublist.
Qed.

Lemma tidy_fire : tidy fire.
Proof.
  intros w. unfold fire. destruct (pick (timers (browser w))) as [[tm rest]|]; [|lia].
  unfold popups. cbn [browser on_browser].
  etransitivity; [apply popups_run_task_length|].
  cbn -[querySelectorAll]. lia.
Qed.

Lemma tidy_eff_ret {A} (a : A) : tidy_eff (ret a).
Proof. intros w. cbn. lia. Qed.

Lemma tidy_eff_throw {A} e : tidy_eff (@throw World A e).
Proof. intros w. cbn. lia. Qed.

Lemma tidy_eff_gets {A} (f : World -> A) : tidy_eff (gets f).
Proof. intros w. cbn. lia. Qed.

Lemma tidy_eff_modify f : tidy f -> tidy_eff (modify f).
Proof. intros H w. apply H. Qed.

Lemma tidy_eff_bind {A B} (c : Eff World A) (k : A -> Eff World B) :
  tidy_eff c -> (forall a, tidy_eff (k a)) -> tidy_eff (bind c k).
Proof.
  intros Hc Hk w. specialize (Hc w). unfold bind. cbn in *.
  destruct (c w) as [[a|e] w1]; cbn in *; [|exact Hc].
  specialize (Hk a w1). cbn in Hk. lia.
Qed.

Lemma tidy_eff_try_catch {A} (c : Eff World A) (h : string -> Eff World A) :
  tidy_eff c -> (forall e, tidy_eff (h e)) -> tidy_eff (try_catch c h).
Proof.
  intros Hc Hh w. specialize (Hc w). unfold try_catch. cbn in *.
  destruct (c w) as [[a|e] w1]; cbn in *; [exact Hc|].
  specialize (Hh e w1). cbn in Hh. lia.
Qed.

Lemma tidy_eff_try_finally {A} (c : Eff World A) f :
  tidy_eff c -> tidy f -> tidy_eff (try_finally c f).
Proof.
  intros Hc Hf w. specialize (Hc w). unfold try_finally. cbn in *.
  destruct (c w) as [r w1]; cbn in *. specialize (Hf w1). lia.
Qed.

Lemma tidy_eff_external {A} (o : Completion A) f : tidy f -> tidy_eff (external o f).
Proof. intros Hf w. unfold external. destruct o; cbn; [apply Hf|lia]. Qed.

Lemma tidy_eff_with_instance {A} method (k : AcApDocManager -> Eff World A) :
  (forall d, tidy_eff (k d)) -> tidy_eff (with_instance method k).
Proof.
  intros Hk w. unfold with_instance.
  destruct (instance (runtime w)) as [d|]; [apply Hk|cbn; lia].
Qed.

Lemma tidy_eff_read_as mode file : tidy_eff (read_as mode file).
Proof.
  apply tidy_same_body. intros w. unfold read_as.
  now destruct (read_error file).
Qed.

Lemma tidy_eff_openDocument env n c o : tidy_eff (openDocument env n c o).
Proof.
  apply tidy_eff_with_instance. intros d. unfold tidy_eff.
  apply tidy_same_body. reflexivity.
Qed.

Lemma tidy_eff_createInstance env : tidy_eff (createInstance env).
Proof.
  apply tidy_same_body. intros w. unfold createInstance.
  now destruct (createInstance_outcome env).
Qed.

Ltac tidy_step :=
  lazymatch goal with
  | |- tidy_eff (bind _ _) => apply tidy_eff_bind; [|intros ?; cbv beta]
  | |- tidy_eff (try_catch _ _) => apply tidy_eff_try_catch; [|intros ?; cbv beta]
  | |- tidy_eff (try_finally _ _) => apply tidy_eff_try_finally
  | |- tidy_eff (modify _) => apply tidy_eff_modify
  | |- tidy_eff (ret _) => apply tidy_eff_ret
  | |- tidy_eff (throw _) => apply tidy_eff_throw
  | |- tidy_eff (gets _) => apply tidy_eff_gets
  | |- tidy_eff (read_as _ _) => apply tidy_eff_read_as
  | |- tidy_eff (openDocument _ _ _ _) => apply tidy_eff_openDocument
  | |- tidy_eff (createInstance _) => apply tidy_eff_createInstance
  | |- tidy_eff (with_instance _ _) =>
      apply tidy_eff_with_instance; intros ?; cbv beta
  | |- tidy_eff (external _ _) => apply tidy_eff_external
  | |- tidy_eff (if ?b then _ else _) => destruct b
  | |- tidy_eff (match ?x with _ => _ end) => destruct x
  | |- tidy (showMessage _ _) => apply tidy_showMessage
  | |- tidy clearMessages => apply tidy_clearMessages
  | |- tidy _ => apply tidy_same_body; reflexivity
  end.

Lemma tidy_eff_initialize env : tidy_eff (CadViewerApp.initialize env).
Proof.
  unfold CadViewerApp.initialize, initializeLocale, CadViewerApp.registerCommands.
  repeat tidy_step.
Qed.

Lemma tidy_eff_loadFile env file : tidy_eff (CadViewerApp.loadFile env file).
Proof.
  unfold CadViewerApp.loadFile, CadViewerApp.readFile.
  apply tidy_eff_bind; [apply tidy_eff_initialize|intros _].
  repeat tidy_step.
Qed.

Lemma tidy_eff_onNewDrawingClick env : tidy_eff (CadViewerApp.onNewDrawingClick env).
Proof.
  unfold CadViewerApp.onNewDrawingClick.
  apply tidy_eff_bind; [apply tidy_eff_initialize|intros _].
  repeat tidy_step.
Qed.

Lemma tidy_eff_initializeViewer env : tidy_eff (CanvasViewerApp.initializeViewer env).
Proof. unfold CanvasViewerApp.initializeViewer. repeat tidy_step. Qed.

Lemma tidy_eff_canvas_loadFile env file : tidy_eff (CanvasViewerApp.loadFile env file).
Proof.
  unfold CanvasViewerApp.loadFile, CanvasViewerApp.readFile. repeat tidy_step.
Qed.

Lemma tidy_perform a : tidy (perform a).
Proof.
  destruct a as [m t| | |env|env files|env|env|env files]; cbn [perform].
  - apply tidy_showMessage.
  - apply tidy_clearMessages.
  - apply tidy_fire.
  - apply tidy_eff_initialize.
  - destruct files as [|file ?]; [apply tidy_eff_ret|apply tidy_eff_loadFile].
  - apply tidy_eff_onNewDrawingClick.
  - apply tidy_eff_initializeViewer.
  - destruct files as [|file ?]; [apply tidy_eff_ret|apply tidy_eff_canvas_loadFile].
Qed.

Lemma tidy_perform_all actions : tidy (perform_all actions).
Proof.
  unfold perform_all.
  induction actions as [|a actions IH]; intros w; cbn; [lia|].
  specialize (IH (perform a w)). pose proof (tidy_perform a w). lia.
Qed.

(** C10. Every call of [showMessage] (and of [clearMessages]) first removes
    every element of class popup-message: after [showMessage] the document
    holds exactly one popup, the new one, whatever it held before; and
    whatever the page does next (messages, timers, initialisations, file
    loads, clicks), it never holds more than one popup again.  In general
    the number of popups never exceeds one unless the page started with
    more. *)
Theorem at_most_one_popup (w : World) (message : string) (type : MessageType)
    (actions : list Action) :
  popups (clearMessages w) = [] /\
  popups (showMessage message type w)
  = [new_popup (nextUid (browser w)) message type] /\
  length (popups (perform_all actions (showMessage message type w))) <= 1 /\
  length (popups (perform_all actions w)) <= Nat.max 1 (length (popups w)).
Proof.
  split; [apply popups_clearMessages|].
  split; [apply popups_showMessage|].
  split; [|apply tidy_perform_all].
  pose proof (tidy_perform_all actions (showMessage message type w)) as H.
  rewrite popups_showMessage in H. cbn in H. lia.
Qed.

End Notifications.

(** * Properties of the timers: a popup dismisses itself *)

Section Timers.

Implicit Types (w : World) (ts rest : list Timer) (tm : Timer) (p u : nat).

Lemma pick_perm ts tm rest : pick ts = Some (tm, rest) -> Permutation ts (tm :: rest).
Proof.
  revert tm rest. induction ts as [|t ts IH]; intros tm rest; cbn [pick]; [easy|].
  destruct (pick ts) as [[m r]|] eqn:Hp.
  - destruct (due m <? due t)%nat; intros H; inversion H; subst; [|reflexivity].
    rewrite (IH _ _ eq_refl). apply perm_swap.
  - intros H; inversion H; subst. destruct ts as [|t' ts]; [reflexivity|].
    cbn [pick] in Hp. destruct (pick ts) as [[m r]|]; [|discriminate].
    destruct (due m <? due t')%nat; discriminate.
Qed.

Lemma pick_nil ts : pick ts = None -> ts = [].
Proof.
  destruct ts as [|t ts]; [easy|]. cbn [pick].
  destruct (pick ts) as [[m r]|]; [|discriminate].
  destruct (due m <? due t)%nat; discriminate.
Qed.

Lemma weight_perm ts ts' : Permutation ts ts' -> weight ts = weight ts'.
Proof.
  unfold weight. induction 1; cbn; lia.
Qed.

Lemma weight_app ts ts' : weight (ts ++ ts') = weight ts + weight ts'.
Proof. unfold weight. induction ts; cbn; lia. Qed.

Lemma weight_bound ts : weight ts <= 2 * length ts.
Proof.
  unfold weight. induction ts as [|t ts IH]; cbn; [lia|].
  destruct (callback t); cbn; lia.
Qed.

Lemma weight_zero ts : weight ts = 0 -> ts = [].
Proof.
  destruct ts as [|t ts]; [easy|]. unfold weight. cbn.
  destruct (callback t); cbn; lia.
Qed.

Lemma fire_idle w : timers (browser w) = [] -> fire w = w.
Proof. unfold fire. now intros ->. Qed.

Lemma fire_n_idle n w : timers (browser w) = [] -> fire_n n w = w.
Proof.
  induction n as [|n IH]; intros H; cbn; [reflexivity|].
  rewrite (fire_idle w H). now apply IH.
Qed.

(** Each turn of the event loop uses up one unit of pending work. *)
Lemma weight_fire w :
  timers (browser w) <> [] ->
  S (weight (timers (browser (fire w)))) = weight (timers (browser w)).
Proof.
  intros Hne. unfold fire.
  destruct (pick (timers (browser w))) as [[tm rest]|] eqn:Hp.
  - rewrite (weight_perm _ _ (pick_perm _ _ _ Hp)).
    unfold weight at 2. cbn [map sum_list_with]. fold (weight rest).
    destruct tm as [d [u|u]]; cbn; [|reflexivity].
    rewrite weight_app. unfold weight at 2. cbn. lia.
  - now apply pick_nil in Hp.
Qed.

Lemma nonempty_of_sublist {A} (l1 l2 : list A) :
  sublist l1 l2 -> l1 <> [] -> l2 <> [].
Proof. intros Hs Hne ->. apply sublist_nil_r in Hs. contradiction. Qed.

(** The popup [p] being the only one, and having its timer while it is in
    the document, stays so at every turn of the event loop. *)
Lemma dismissing_fire p w : dismissing p w -> dismissing p (fire w).
Proof.
  intros [Honly Hpend]. unfold fire.
  destruct (pick (timers (browser w))) as [[tm rest]|] eqn:Hp; [|now split].
  apply pick_perm in Hp.
  destruct tm as [d [u|u]]; unfold dismissing, popups;
    cbn -[querySelectorAll detach_all restyle].
  - rewrite !querySelectorAll_restyle by reflexivity. split.
    + apply Forall_map. eapply Forall_impl; [exact Honly|].
      intros a Ha. cbn. now destruct (is_uid u a).
    + intros Hin. destruct (Hpend ltac:(intros E; apply Hin; now rewrite E))
        as (t & Hin' & Ht).
      apply (Permutation_in _ Hp) in Hin'. destruct Hin' as [<-|Hin'].
      * exists (mkTimer (Nat.max d (now (browser w)) + 200) (Remove p)).
        cbn in Ht. destruct Ht as [[= ->]|[=]].
        split; [|now right]. apply in_or_app. right. now left.
      * exists t. split; [|exact Ht]. apply in_or_app. now left.
  - split.
    + eapply Forall_of_sublist; [|exact Honly].
      apply querySelectorAll_detach_sublist.
    + intros Hin.
      assert (Hbefore : querySelectorAll (is_uid p) (body (browser w)) <> []).
      { eapply nonempty_of_sublist; [|exact Hin].
        apply querySelectorAll_detach_sublist. }
      destruct (Hpend Hbefore) as (t & Hin' & Ht).
      apply (Permutation_in _ Hp) in Hin'. destruct Hin' as [<-|Hin'].
      * cbn in Ht. destruct Ht as [[=]|[= ->]].
        now rewrite querySelectorAll_detach_all in Hin.
      * exists t. now split.
Qed.

Lemma dismissing_done p w :
  dismissing p w -> timers (browser w) = [] -> popups w = [].
Proof.
  intros [Honly Hpend] Hts. destruct (popups w) as [|a l] eqn:Hpop; [reflexivity|].
  exfalso. rewrite Hts in Hpend.
  assert (Ha : In a (popups w)) by (rewrite Hpop; now left).
  apply Forall_inv in Honly.
  unfold popups, querySelectorAll in Ha. apply filter_In in Ha as [Ha _].
  destruct Hpend as (t & [] & _).
  intros Hnil.
  assert (Hin : In a (querySelectorAll (is_uid p) (body (browser w)))).
  { apply filter_In. split; [exact Ha|]. unfold is_uid. now apply Nat.eqb_eq. }
  rewrite Hnil in Hin. destruct Hin.
Qed.

Lemma dismissing_fire_n p n w :
  weight (timers (browser w)) <= n -> dismissing p w -> popups (fire_n n w) = [].
Proof.
  revert w. induction n as [|n IH]; intros w Hw Hd; cbn.
  - apply (dismissing_done p w Hd), weight_zero. lia.
  - destruct (timers (browser w)) as [|t ts] eqn:Hts.
    + rewrite fire_idle, fire_n_idle by exact Hts. now apply (dismissing_done p).
    + apply IH; [|now apply dismissing_fire].
      pose proof (weight_fire w ltac:(now rewrite Hts)) as H. rewrite Hts in H. lia.
Qed.

Lemma dismissing_showMessage m t w :
  dismissing (nextUid (browser w)) (showMessage m t w).
Proof.
  split.
  - rewrite popups_showMessage. constructor; [|constructor]. apply uid_new_popup.
  - intros _. exists (mkTimer (now (browser w) + 1000) (FadeOut (nextUid (browser w)))).
    split; [|now left]. cbn. apply in_or_app. right. now left.
Qed.

(** A message dismisses itself: once every pending timer has fired, no
    popup is left. *)
Lemma showMessage_dismissed m t w n :
  2 * length (timers (browser (showMessage m t w))) <= n ->
  popups (fire_n n (showMessage m t w)) = [].
Proof.
  intros Hn. apply (dismissing_fire_n (nextUid (browser w))).
  - etransitivity; [apply weight_bound|exact Hn].
  - apply dismissing_showMessage.
Qed.

End Timers.

(** * Properties of the bootstrap *)

Section Bootstrap.

Implicit Types (w : World) (env : Env).

Lemma initialize_when_initialized env w :
  isInitialized w = true -> CadViewerApp.initialize env w = (Returned tt, w).
Proof.
  intros H. unfold CadViewerApp.initialize, bind, gets. now rewrite H.
Qed.

Ltac run_initialize env w :=
  unfold CadViewerApp.initialize, createInstance, initializeLocale,
    CadViewerApp.registerCommands, with_instance, external, try_catch, bind,
    gets, modify, ret;
  destruct (isInitialized w) eqn:?;
  destruct (createInstance_outcome env) as [?|?] eqn:?;
  destruct (initializeLocale_outcome env) as [[]|?] eqn:?;
  destruct (addCommand_outcome env) as [[]|?] eqn:?;
  cbn.

(** [initialize] never throws, starts no read and opens no document. *)
Lemma initialize_frame env w :
  (CadViewerApp.initialize env w).1 = Returned tt /\
  reads (browser (CadViewerApp.initialize env w).2) = reads (browser w) /\
  openCalls (runtime (CadViewerApp.initialize env w).2) = openCalls (runtime w).
Proof. run_initialize env w; repeat split; reflexivity. Qed.

Lemma initialize_run env w :
  CadViewerApp.initialize env w
  = (Returned tt, (CadViewerApp.initialize env w).2).
Proof.
  destruct (initialize_frame env w) as [H _].
  destruct (CadViewerApp.initialize env w) as [r w']. cbn in *. now subst.
Qed.

(** One call asks the package for at most one runtime, and for exactly one
    when it raises the flag. *)
Lemma initialize_constructions env w :
  constructions (runtime (CadViewerApp.initialize env w).2)
  <= S (constructions (runtime w)) /\
  (isInitialized w = false ->
   isInitialized (CadViewerApp.initialize env w).2 = true ->
   constructions (runtime (CadViewerApp.initialize env w).2)
   = S (constructions (runtime w))).
Proof.
  run_initialize env w; split; try lia; try congruence; try discriminate;
    intros; try reflexivity; try discriminate; try lia.
Qed.

(** C4. Once a call of [initialize] has raised the [isInitialized] flag,
    every later call returns at once and leaves the whole state as it is,
    the runtime instance and the registered commands included; so two
    calls, the first of which succeeds, construct the runtime once. *)
Theorem initialize_is_idempotent (env1 env2 : Env) (later : list Env) (w : World) :
  isInitialized (CadViewerApp.initialize env1 w).2 = true ->
  CadViewerApp.initialize env2 (CadViewerApp.initialize env1 w).2
  = (Returned tt, (CadViewerApp.initialize env1 w).2) /\
  perform_all (map Initialize later) (CadViewerApp.initialize env1 w).2
  = (CadViewerApp.initialize env1 w).2 /\
  constructions
    (runtime (CadViewerApp.initialize env2 (CadViewerApp.initialize env1 w).2).2)
  <= S (constructions (runtime w)) /\
  (isInitialized w = false ->
   constructions
     (runtime (CadViewerApp.initialize env2 (CadViewerApp.initialize env1 w).2).2)
   = S (constructions (runtime w))).
Proof.
  intros Hflag.
  split; [now apply initialize_when_initialized|].
  split.
  { unfold perform_all.
    induction later as [|e later IH]; cbn [map fold_left perform]; [reflexivity|].
    now rewrite initialize_when_initialized. }
  rewrite (initialize_when_initialized env2) by exact Hflag. cbn [snd].
  destruct (initialize_constructions env1 w) as [H1 H2]. split; [exact H1|].
  intros H. now apply H2.
Qed.

End Bootstrap.

Lemma initialize_is_idempotent_witness :
  CadViewerApp.initialize obliging (CadViewerApp.initialize obliging fresh).2
  = (Returned tt, (CadViewerApp.initialize obliging fresh).2) /\
  perform_all (map Initialize [obliging; unable])
    (CadViewerApp.initialize obliging fresh).2
  = (CadViewerApp.initialize obliging fresh).2 /\
  constructions
    (runtime (CadViewerApp.initialize obliging
                (CadViewerApp.initialize obliging fresh).2).2)
  <= S (constructions (runtime fresh)) /\
  (isInitialized fresh = false ->
   constructions
     (runtime (CadViewerApp.initialize obliging
                 (CadViewerApp.initialize obliging fresh).2).2)
   = S (constructions (runtime fresh))).
Proof.
  apply (initialize_is_idempotent obliging obliging [obliging; unable] fresh).
  reflexivity.
Defined.

(** * Properties of the file loader *)

Section Loader.

Local Open Scope string_scope.

Implicit Types (w : World) (env : Env) (file : File).

Lemma valid_name_spec file :
  valid_name file = true <->
  has_extension (name file) ".dxf" \/ has_extension (name file) ".dwg".
Proof.
  unfold valid_name. rewrite orb_true_iff.
  now rewrite !endsWith_toLowerCase_spec by reflexivity.
Qed.

Lemma invalid_name_spec file :
  valid_name file = false <->
  ~ (has_extension (name file) ".dxf" \/ has_extension (name file) ".dwg").
Proof.
  rewrite <- valid_name_spec. now destruct (valid_name file).
Qed.

Lemma validation_test file :
  negb (endsWith (toLowerCase (name file)) ".dxf")
  && negb (endsWith (toLowerCase (name file)) ".dwg")
  = negb (valid_name file).
Proof. unfold valid_name. now rewrite negb_orb. Qed.

(** The container-based loader, outcome by outcome. *)

Lemma loadFile_rejected env file w :
  valid_name file = false ->
  CadViewerApp.loadFile env file w
  = (Returned tt,
     showMessage "Please select a DXF or DWG file" error
       (CadViewerApp.initialize env w).2).
Proof.
  intros Hv. unfold CadViewerApp.loadFile.
  rewrite (bind_run _ _ _ _ _ (initialize_run env w)).
  now rewrite validation_test, Hv.
Qed.

Lemma loadFile_read_failed env file w e :
  valid_name file = true -> read_error file = Some e ->
  CadViewerApp.loadFile env file w
  = (Returned tt,
     showMessage ("Error loading file: " ++ e) error
       (console_error ("Error loading file: " ++ e)
          (reading AsArrayBuffer file
             (clearMessages (hideNewButton (CadViewerApp.initialize env w).2))))).
Proof.
  intros Hv He. unfold CadViewerApp.loadFile.
  rewrite (bind_run _ _ _ _ _ (initialize_run env w)).
  rewrite validation_test, Hv. cbn [negb].
  unfold bind at 1 2, modify at 1 2, try_catch, bind at 1,
    CadViewerApp.readFile, read_as.
  now rewrite He.
Qed.

Lemma loadFile_no_instance env file w :
  valid_name file = true -> read_error file = None ->
  instance (runtime (CadViewerApp.initialize env w).2) = None ->
  exists e,
    CadViewerApp.loadFile env file w
    = (Returned tt,
       showMessage ("Error loading file: " ++ e) error
         (console_error ("Error loading file: " ++ e)
            (mark_loaded
               (reading AsArrayBuffer file
                  (clearMessages
                     (hideNewButton (CadViewerApp.initialize env w).2)))))).
Proof.
  intros Hv He Hi. eexists. unfold CadViewerApp.loadFile.
  rewrite (bind_run _ _ _ _ _ (initialize_run env w)).
  rewrite validation_test, Hv. cbn [negb].
  unfold bind at 1 2, modify at 1 2, try_catch, bind at 1,
    CadViewerApp.readFile, read_as.
  rewrite He. unfold bind at 1, modify at 1, bind at 1, openDocument, with_instance.
  cbn [runtime mark_loaded on_browser clearMessages hideNewButton].
  rewrite Hi. reflexivity.
Qed.

Lemma loadFile_opened env file w d :
  valid_name file = true -> read_error file = None ->
  instance (runtime (CadViewerApp.initialize env w).2) = Some d ->
  CadViewerApp.loadFile env file w
  = (Returned tt,
     let w' := opening (ArrayBuffer (data file)) file
                 (reading AsArrayBuffer file
                    (clearMessages
                       (hideNewButton (CadViewerApp.initialize env w).2))) in
     match openDocument_outcome env (name file) (ArrayBuffer (data file))
             (mkOpenOptions 1000 true) with
     | Returned true =>
         showMessage ("Successfully loaded: " ++ name file) success w'
     | Returned false =>
         showMessage ("Failed to load: " ++ name file) error w'
     | Thrown e =>
         showMessage ("Error loading file: " ++ e) error
           (console_error ("Error loading file: " ++ e) w')
     end).
Proof.
  intros Hv He Hi. unfold CadViewerApp.loadFile.
  rewrite (bind_run _ _ _ _ _ (initialize_run env w)).
  rewrite validation_test, Hv. cbn [negb].
  unfold bind at 1 2, modify at 1 2, try_catch, bind at 1,
    CadViewerApp.readFile, read_as.
  rewrite He. unfold bind at 1, modify at 1, bind at 1, openDocument, with_instance.
  cbn [runtime mark_loaded on_browser clearMessages hideNewButton].
  rewrite Hi. cbv zeta.
  destruct (openDocument_outcome env (name file) (ArrayBuffer (data file))
              (mkOpenOptions 1000 true)) as [[|]|e]; reflexivity.
Qed.

End Loader.

(** * The canvas-based loader, outcome by outcome *)

Section CanvasLoader.

Local Open Scope string_scope.

Implicit Types (w : World) (env : Env) (file : File).

Lemma canvas_loadFile_no_instance env file w :
  instance (runtime w) = None ->
  CanvasViewerApp.loadFile env file w
  = (Returned tt, showMessage "CAD viewer not initialized" error w).
Proof.
  intros Hi. unfold CanvasViewerApp.loadFile, bind at 1, gets. now rewrite Hi.
Qed.

Lemma canvas_loadFile_rejected env file w d :
  instance (runtime w) = Some d -> valid_name file = false ->
  CanvasViewerApp.loadFile env file w
  = (Returned tt, showMessage "Please select a DXF or DWG file" error w).
Proof.
  intros Hi Hv. unfold CanvasViewerApp.loadFile, bind at 1, gets. rewrite Hi.
  now rewrite validation_test, Hv.
Qed.

Lemma canvas_readFile_run file w :
  valid_name file = true ->
  CanvasViewerApp.readFile file w = read_as (canvas_mode file) file w.
Proof.
  unfold valid_name, CanvasViewerApp.readFile, canvas_mode.
  destruct (endsWith (toLowerCase (name file)) ".dxf"); [reflexivity|].
  cbn. now intros ->.
Qed.

Lemma canvas_loadFile_read_failed env file w d e :
  instance (runtime w) = Some d -> valid_name file = true ->
  read_error file = Some e ->
  CanvasViewerApp.loadFile env file w
  = (Returned tt,
     CanvasViewerApp.showLoading false
       (showMessage ("Error loading file: " ++ e) error
          (console_error ("Error loading file: " ++ e)
             (reading (canvas_mode file) file
                (clearMessages (CanvasViewerApp.showLoading true w)))))).
Proof.
  intros Hi Hv He. unfold CanvasViewerApp.loadFile, bind at 1, gets. rewrite Hi.
  rewrite validation_test, Hv. cbn [negb].
  unfold bind at 1 2, modify at 1 2, try_finally, try_catch, bind at 1.
  rewrite canvas_readFile_run by exact Hv. unfold read_as. now rewrite He.
Qed.

Lemma canvas_loadFile_opened env file w d :
  instance (runtime w) = Some d -> valid_name file = true ->
  read_error file = None ->
  CanvasViewerApp.loadFile env file w
  = (Returned tt,
     let content := content_of (canvas_mode file) file in
     let w' := opening content file
                 (reading (canvas_mode file) file
                    (clearMessages (CanvasViewerApp.showLoading true w))) in
     CanvasViewerApp.showLoading false
       match openDocument_outcome env (name file) content
               (mkOpenOptions 1000 true) with
       | Returned true =>
           showMessage ("Successfully loaded: " ++ name file) success w'
       | Returned false =>
           showMessage ("Failed to load: " ++ name file) error w'
       | Thrown e =>
           showMessage ("Error loading file: " ++ e) error
             (console_error ("Error loading file: " ++ e) w')
       end).
Proof.
  intros Hi Hv He. unfold CanvasViewerApp.loadFile, bind at 1, gets. rewrite Hi.
  rewrite validation_test, Hv. cbn [negb].
  unfold bind at 1 2, modify at 1 2, try_finally, try_catch, bind at 1.
  rewrite canvas_readFile_run by exact Hv. unfold read_as. rewrite He.
  unfold bind at 1, modify at 1, bind at 1, openDocument, with_instance.
  cbn [runtime mark_loaded on_browser clearMessages CanvasViewerApp.showLoading].
  rewrite Hi. cbv zeta. fold (content_of (canvas_mode file) file).
  destruct (openDocument_outcome env (name file)
              (content_of (canvas_mode file) file)
              (mkOpenOptions 1000 true)) as [[|]|e]; reflexivity.
Qed.




End CanvasLoader.

(** * What the file loader guarantees *)

Section LoaderClaims.

Local Open Scope string_scope.

Implicit Types (w : World) (env : Env) (file : File).

Ltac frame :=
  cbn [showMessage clearMessages console_error hideNewButton mark_loaded
       reading opening on_browser on_runtime setTimeout
       set_body set_nextUid set_now set_timers set_console set_reads
       set_newButtonHidden set_fileInputContainer set_loadingShown
       CanvasViewerApp.showLoading
       browser runtime reads openCalls snd fst].

(** The container-based loader ends by showing one message, whatever
    happens, and starts its read when the name is valid. *)
Lemma loadFile_ends_with_message env file w :
  exists message type w0,
    CadViewerApp.loadFile env file w = (Returned tt, showMessage message type w0)
    /\ reads (browser w0)
       = (reads (browser w)
          ++ if valid_name file then [(name file, AsArrayBuffer)] else [])%list.
Proof.
  destruct (initialize_frame env w) as (_ & Hr & _).
  destruct (valid_name file) eqn:Hv.
  - destruct (read_error file) as [e|] eqn:He.
    + eexists _, _, _.
      split; [apply (loadFile_read_failed env file w e Hv He)|].
      frame. now rewrite Hr.
    + destruct (instance (runtime (CadViewerApp.initialize env w).2))
        as [d|] eqn:Hi.
      * rewrite (loadFile_opened env file w d Hv He Hi). cbv zeta.
        destruct (openDocument_outcome env (name file) (ArrayBuffer (data file))
                    (mkOpenOptions 1000 true)) as [[|]|e];
          eexists _, _, _; (split; [reflexivity|]); frame; now rewrite Hr.
      * destruct (loadFile_no_instance env file w Hv He Hi) as [e ->].
        eexists _, _, _. split; [reflexivity|]. frame. now rewrite Hr.
  - eexists _, _, _. split; [now apply loadFile_rejected|].
    rewrite Hr. now rewrite app_nil_r.
Qed.



End LoaderClaims.

(** * Reading modes, and the end of a load *)

Section LoaderOutcomes.

Local Open Scope string_scope.

Implicit Types (w : World) (env : Env) (file : File).

Ltac frame :=
  cbn [showMessage clearMessages console_error hideNewButton mark_loaded
       reading opening on_browser on_runtime setTimeout
       set_body set_nextUid set_now set_timers set_console set_reads
       set_newButtonHidden set_fileInputContainer set_loadingShown
       CanvasViewerApp.showLoading
       browser runtime reads openCalls snd fst].





(** C6. A load of an accepted file ends, without throwing, by showing
    exactly one popup, after exactly one read and at most one call of
    [openDocument]: nothing is read or opened a second time.  A rejected
    read shows the error 'Error loading file: ...' and opens nothing;
    [openDocument] resolving with false shows the error 'Failed to load:
    ...'; with true, the success message 'Successfully loaded: ...'.  The
    popup is transient: once the pending timers have fired, no popup is
    left. *)
Theorem loadFile_failure_is_terminal (env : Env) (file : File) (w : World) :
  has_extension (name file) ".dxf" \/ has_extension (name file) ".dwg" ->
  exists popup : Attrs,
    (CadViewerApp.loadFile env file w).1 = Returned tt /\
    popups (CadViewerApp.loadFile env file w).2 = [popup] /\
    reads (browser (CadViewerApp.loadFile env file w).2)
    = (reads (browser w) ++ [(name file, AsArrayBuffer)])%list /\
    (forall e, read_error file = Some e ->
       textContent popup = "Error loading file: " ++ e /\
       className popup = ["popup-message"; "error"] /\
       openCalls (runtime (CadViewerApp.loadFile env file w).2)
       = openCalls (runtime w)) /\
    (read_error file = None ->
     instance (runtime (CadViewerApp.initialize env w).2) <> None ->
     openCalls (runtime (CadViewerApp.loadFile env file w).2)
     = (openCalls (runtime w)
        ++ [(name file, ArrayBuffer (data file), mkOpenOptions 1000 true)])%list /\
     match openDocument_outcome env (name file) (ArrayBuffer (data file))
             (mkOpenOptions 1000 true) with
     | Returned true =>
         textContent popup = "Successfully loaded: " ++ name file /\
         className popup = ["popup-message"; "success"]
     | Returned false =>
         textContent popup = "Failed to load: " ++ name file /\
         className popup = ["popup-message"; "error"]
     | Thrown e =>
         textContent popup = "Error loading file: " ++ e /\
         className popup = ["popup-message"; "error"]
     end) /\
    (forall n,
       2 * length (timers (browser (CadViewerApp.loadFile env file w).2)) <= n ->
       popups (fire_n n (CadViewerApp.loadFile env file w).2) = []).
Proof.
  intros Hv%valid_name_spec.
  destruct (initialize_frame env w) as (_ & Hr & Ho).
  destruct (read_error file) as [e|] eqn:He.
  - rewrite (loadFile_read_failed env file w e Hv He). cbn [fst snd].
    eexists. split; [reflexivity|]. split; [apply popups_showMessage|].
    split; [frame; now rewrite Hr|].
    split.
    { intros e' [= <-]. rewrite textContent_new_popup, className_new_popup.
      split; [reflexivity|]. split; [reflexivity|]. frame. exact Ho. }
    split; [discriminate|]. intros n. apply showMessage_dismissed.
  - destruct (instance (runtime (CadViewerApp.initialize env w).2))
      as [d|] eqn:Hi.
    + rewrite (loadFile_opened env file w d Hv He Hi). cbv zeta. cbn [fst snd].
      destruct (openDocument_outcome env (name file) (ArrayBuffer (data file))
                  (mkOpenOptions 1000 true)) as [[|]|e];
        (eexists; split; [reflexivity|]; split; [apply popups_showMessage|];
         split; [frame; now rewrite Hr|];
         split; [discriminate|];
         split; [|intros n; apply showMessage_dismissed];
         intros _ _; rewrite textContent_new_popup, className_new_popup;
         split; [frame; now rewrite Ho|]; split; reflexivity).
    + destruct (loadFile_no_instance env file w Hv He Hi) as [e ->].
      cbn [fst snd].
      eexists. split; [reflexivity|]. split; [apply popups_showMessage|].
      split; [frame; now rewrite Hr|].
      split; [discriminate|].
      split; [now intros _ []|]. intros n. apply showMessage_dismissed.
Qed.

Lemma loadFile_failure_is_terminal_witness :
  exists popup : Attrs,
    popups (CadViewerApp.loadFile unable
              (mkFile "plan.dwg" [Byte.x41; Byte.x43] None) fresh).2 = [popup] /\
    textContent popup = "Failed to load: plan.dwg" /\
    className popup = ["popup-message"; "error"] /\
    popups (fire_n 2 (CadViewerApp.loadFile unable
                        (mkFile "plan.dwg" [Byte.x41; Byte.x43] None) fresh).2)
    = [].
Proof.
  destruct (loadFile_failure_is_terminal unable
              (mkFile "plan.dwg" [Byte.x41; Byte.x43] None) fresh)
    as (popup & _ & Hp & _ & _ & Ho & Hd).
  - right. exists "plan", ".dwg". split; [reflexivity|].
    cbn. repeat split; now left.
  - exists popup. split; [exact Hp|].
    destruct (Ho eq_refl ltac:(discriminate)) as (_ & Ht & Hc).
    split; [exact Ht|]. split; [exact Hc|]. apply Hd. vm_compute. lia.
Defined.

End LoaderOutcomes.

(** * Further properties of the ellipse command *)

Section EllipseMore.

Implicit Types (s : Session) (j : AcApEllipseJig.t) (e : AcDbEllipse).

Lemma preview_entity j vs s e :
  AcApEllipseJig.entity j s = Some e ->
  (preview j vs s).1 = Returned tt /\
  AcApEllipseJig.entity j (preview j vs s).2 = Some (previewed vs e) /\
  modelSpace (preview j vs s).2 = modelSpace s /\
  inputs (preview j vs s).2 = inputs s /\
  length (objects (preview j vs s).2) = length (objects s).
Proof.
  revert s e. induction vs as [|v vs IH]; intros s e He; [easy|].
  cbn [preview]. unfold bind, AcApEllipseJig.update at 1, modify.
  set (s1 := set_objects _ s).
  assert (H1 : AcApEllipseJig.entity j s1 = Some (set_minorAxisRadius v e)).
  { unfold AcApEllipseJig.entity in *. subst s1. cbn.
    now rewrite list_lookup_alter_eq, He. }
  destruct (IH s1 _ H1) as (Hr & Hent & Hms & Hin & Hlen).
  repeat split; try assumption.
  subst s1. cbn in Hlen. now rewrite length_alter in Hlen.
Qed.

(** X2. Updates of the jig overwrite one another: whatever candidate values
    the jig was given before, after [update(v)] its preview ellipse is the
    original one with minor radius v, and two updates in a row leave the
    same state as the second alone. *)
Theorem jig_last_update_wins
    (j : AcApEllipseJig.t) (candidates : list float) (v : float) (s : Session)
    (e : AcDbEllipse) :
  AcApEllipseJig.entity j s = Some e ->
  AcApEllipseJig.entity j (preview j (candidates ++ [v]) s).2
  = Some (set_minorAxisRadius v e) /\
  (forall v0 : float,
     AcApEllipseJig.update j v (AcApEllipseJig.update j v0 s).2
     = AcApEllipseJig.update j v s).
Proof.
  intros He. split.
  - destruct (preview_entity j (candidates ++ [v]) s e He) as (_ & -> & _).
    unfold previewed. rewrite fold_left_app. cbn. f_equal.
    apply set_minor_previewed.
  - intros v0. unfold AcApEllipseJig.update, modify, set_objects. cbn.
    now rewrite list_alter_alter_eq.
Qed.

Lemma jig_last_update_wins_witness :
  AcApEllipseJig.entity (AcApEllipseJig.mk 7 0)
    (preview (AcApEllipseJig.mk 7 0) ([10; 30] ++ [25])%float
       (mkSession
          [mkEllipse (mkPoint 0 0 0) AcGeVector3d.Z_AXIS (AcGeVector3d.mk 0 1 0)
             100 100 0 (Math_PI * 2)] [] [])).2
  = Some (mkEllipse (mkPoint 0 0 0) AcGeVector3d.Z_AXIS (AcGeVector3d.mk 0 1 0)
            100 25 0 (Math_PI * 2)).
Proof.
  apply (proj1 (jig_last_update_wins (AcApEllipseJig.mk 7 0) [10; 30]%float 25
                  (mkSession
                     [mkEllipse (mkPoint 0 0 0) AcGeVector3d.Z_AXIS
                        (AcGeVector3d.mk 0 1 0) 100 100 0 (Math_PI * 2)] [] [])
                  _ eq_refl)).
Defined.

(** X1. [execute] appends to model space only when all three prompts
    resolve: if it throws, the model space is as before; if it returns, the
    model space has gained exactly one entity, a newly allocated object.  In
    both cases the pending input is only consumed, and the objects that
    existed before are untouched (new ones are allocated after them). *)
Theorem execute_appends_only_on_success (context : AcApContext) (s : Session) :
  objects s `prefix_of` objects (AcApEllipseCmd.execute context s).2 /\
  inputs (AcApEllipseCmd.execute context s).2 `suffix_of` inputs s /\
  match (AcApEllipseCmd.execute context s).1 with
  | Returned _ =>
      exists entity : ref,
        length (objects s) <= entity /\
        modelSpace (AcApEllipseCmd.execute context s).2 = modelSpace s ++ [entity]
  | Thrown _ =>
      modelSpace (AcApEllipseCmd.execute context s).2 = modelSpace s
  end.
Proof.
  destruct s as [os ms ins].
  destruct ins as [|i1 ins].
  { cbn. repeat split; reflexivity. }
  destruct i1 as [c|vs d|];
    [|cbn; (split; [reflexivity|]); (split; [now apply suffix_cons_r|reflexivity])..].
  destruct ins as [|i2 ins].
  { cbn. split; [reflexivity|]. split; [apply suffix_cons_r; reflexivity|reflexivity]. }
  destruct i2 as [p|vs d|];
    [|cbn; (split; [reflexivity|]);
      (split; [now do 2 apply suffix_cons_r|reflexivity])..].
  destruct ins as [|i3 ins].
  { cbn. split; [now apply prefix_app_r|].
    split; [now do 2 apply suffix_cons_r|reflexivity]. }
  destruct i3 as [q|vs r|].
  - cbn. split; [now apply prefix_app_r|].
    split; [now do 3 apply suffix_cons_r|reflexivity].
  - rewrite execute_run. cbn [fst snd objects modelSpace inputs].
    split; [now do 2 apply prefix_app_r|].
    split; [now do 3 apply suffix_cons_r|].
    exists (S (length os)). split; [lia|reflexivity].
  - cbn. split; [now apply prefix_app_r|].
    split; [now do 3 apply suffix_cons_r|reflexivity].
Qed.

End EllipseMore.

(** * Further properties of the bootstrap and of the file loaders *)

Section AppMore.

Local Open Scope string_scope.

Implicit Types (w : World) (env : Env) (file : File).

Ltac frame :=
  cbn [showMessage clearMessages console_error hideNewButton mark_loaded
       reading opening on_browser on_runtime setTimeout
       set_body set_nextUid set_now set_timers set_console set_reads
       set_newButtonHidden set_fileInputContainer set_loadingShown
       set_isInitialized CanvasViewerApp.showLoading
       browser runtime reads openCalls isInitialized instance constructions
       localeInits console newButtonHidden fileInputContainer loadingShown
       snd fst].

Ltac run_initialize env w :=
  unfold CadViewerApp.initialize, createInstance, initializeLocale,
    CadViewerApp.registerCommands, with_instance, external, try_catch, bind,
    gets, modify, ret;
  destruct (isInitialized w) eqn:?;
  destruct (createInstance_outcome env) as [?|?] eqn:?;
  destruct (initializeLocale_outcome env) as [[]|?] eqn:?;
  destruct (addCommand_outcome env) as [[]|?] eqn:?;
  cbn -[showMessage new_popup].

(** [initialize] leaves the controls of the page alone. *)
Lemma initialize_controls env w :
  newButtonHidden (browser (CadViewerApp.initialize env w).2)
  = newButtonHidden (browser w) /\
  fileInputContainer (browser (CadViewerApp.initialize env w).2)
  = fileInputContainer (browser w) /\
  loadingShown (browser (CadViewerApp.initialize env w).2)
  = loadingShown (browser w).
Proof. run_initialize env w; repeat split; reflexivity. Qed.

(** The two ways a call of [initialize] can go on an application that is
    not initialised. *)
Lemma initialize_cases env w :
  isInitialized w = false ->
  (exists doc,
     createInstance_outcome env = Returned doc /\
     initializeLocale_outcome env = Returned tt /\
     addCommand_outcome env = Returned tt /\
     CadViewerApp.initialize env w
     = (Returned tt,
        mkWorld true (browser w)
          (mkRuntime
             (Some (mkDocManager
                      [(SYSTEMT_COMMAND_GROUP_NAME, "ellipse", "ellipse")] doc 0))
             (S (constructions (runtime w))) (S (localeInits (runtime w)))
             (openCalls (runtime w)))))
  \/
  (~ ((exists doc, createInstance_outcome env = Returned doc) /\
      initializeLocale_outcome env = Returned tt /\
      addCommand_outcome env = Returned tt) /\
   exists e w0,
     CadViewerApp.initialize env w
     = (Returned tt,
        showMessage "Failed to initialize CAD viewer" error
          (console_error ("Failed to initialize CAD viewer: " ++ e) w0)) /\
     isInitialized w0 = false /\ browser w0 = browser w).
Proof.
  intros Hflag.
  unfold CadViewerApp.initialize, createInstance, initializeLocale,
    CadViewerApp.registerCommands, with_instance, external, try_catch, bind,
    gets, modify, ret.
  rewrite Hflag. cbn [negb].
  destruct (createInstance_outcome env) as [doc|e1] eqn:H1.
  - destruct (initializeLocale_outcome env) as [[]|e2] eqn:H2.
    + cbn [runtime on_runtime instance].
      destruct (addCommand_outcome env) as [[]|e3] eqn:H3.
      * left. exists doc. repeat split; reflexivity.
      * right. split; [intros (_ & _ & ?); discriminate|].
        eexists _, _. split; [reflexivity|]. split; [exact Hflag|reflexivity].
    + right. split; [intros (_ & ? & _); discriminate|].
      eexists _, _. split; [reflexivity|]. split; [exact Hflag|reflexivity].
  - right. split; [intros ([? ?] & _); discriminate|].
    eexists _, _. split; [reflexivity|]. split; [exact Hflag|reflexivity].
Qed.

(** X5. A call of [initialize] on an application that is not initialised
    never throws, and raises the flag exactly when [createInstance],
    [initializeLocale] and [addCommand] all went through: then one runtime
    was constructed, holding exactly the ellipse command, and the page is
    untouched.  Otherwise the flag stays down, one error popup 'Failed to
    initialize CAD viewer' is shown and one line is written to the
    console. *)
Theorem initialize_outcome (env : Env) (w : World) :
  isInitialized w = false ->
  (CadViewerApp.initialize env w).1 = Returned tt /\
  (isInitialized (CadViewerApp.initialize env w).2 = true <->
   (exists doc, createInstance_outcome env = Returned doc) /\
   initializeLocale_outcome env = Returned tt /\
   addCommand_outcome env = Returned tt) /\
  (isInitialized (CadViewerApp.initialize env w).2 = true ->
   (exists doc,
      instance (runtime (CadViewerApp.initialize env w).2)
      = Some (mkDocManager
                [(SYSTEMT_COMMAND_GROUP_NAME, "ellipse", "ellipse")] doc 0)) /\
   constructions (runtime (CadViewerApp.initialize env w).2)
   = S (constructions (runtime w)) /\
   localeInits (runtime (CadViewerApp.initialize env w).2)
   = S (localeInits (runtime w)) /\
   browser (CadViewerApp.initialize env w).2 = browser w) /\
  (isInitialized (CadViewerApp.initialize env w).2 = false ->
   popups (CadViewerApp.initialize env w).2
   = [new_popup (nextUid (browser w)) "Failed to initialize CAD viewer" error] /\
   length (console (browser (CadViewerApp.initialize env w).2))
   = S (length (console (browser w)))).
Proof.
  intros Hflag.
  destruct (initialize_cases env w Hflag)
    as [(doc & H1 & H2 & H3 & ->)|(Hnot & e & w0 & -> & Hw0 & Hb)];
    cbn [fst snd].
  - split; [reflexivity|]. split; [split; [intros _; eauto|reflexivity]|].
    split; [|discriminate]. intros _. split; [now exists doc|].
    repeat split; reflexivity.
  - split; [reflexivity|].
    assert (Hdown : isInitialized
                      (showMessage "Failed to initialize CAD viewer" error
                         (console_error ("Failed to initialize CAD viewer: " ++ e) w0))
                    = false) by exact Hw0.
    split; [split; [intros H; rewrite Hdown in H; discriminate|easy]|].
    split; [intros H; rewrite Hdown in H; discriminate|].
    intros _. rewrite popups_showMessage. frame. rewrite Hb.
    split; [reflexivity|]. rewrite length_app. cbn. lia.
Qed.

Lemma initialize_outcome_witness :
  isInitialized (CadViewerApp.initialize broken fresh).2 = false /\
  map textContent (popups (CadViewerApp.initialize broken fresh).2)
  = ["Failed to initialize CAD viewer"] /\
  isInitialized (CadViewerApp.initialize obliging fresh).2 = true.
Proof.
  destruct (initialize_outcome broken fresh eq_refl) as (_ & _ & _ & H).
  destruct (initialize_outcome obliging fresh eq_refl) as (_ & [_ H2] & _).
  split; [reflexivity|]. split.
  - destruct (H eq_refl) as [-> _]. reflexivity.
  - apply H2. split; [now exists true|]. split; reflexivity.
Defined.

End AppMore.

(** * More on initialisation and on what a load leaves behind *)

Section LoadMore.

Local Open Scope string_scope.

Implicit Types (w : World) (env : Env) (file : File).

Ltac frame :=
  cbn [showMessage clearMessages console_error hideNewButton mark_loaded
       reading opening on_browser on_runtime setTimeout
       set_body set_nextUid set_now set_timers set_console set_reads
       set_newButtonHidden set_fileInputContainer set_loadingShown
       set_isInitialized CanvasViewerApp.showLoading
       browser runtime reads openCalls isInitialized instance constructions
       localeInits console newButtonHidden fileInputContainer loadingShown
       snd fst].

(** X6. The [isInitialized] guard protects only after a complete success:
    when [createInstance] went through but a later step of the same call
    threw, the flag is still down, and the next call of [initialize] asks the
    package for a runtime again, so that [createInstance] has gone through
    twice. *)
Theorem failed_initialize_constructs_again
    (env1 env2 : Env) (w : World) (doc1 doc2 : bool) (e : string) :
  isInitialized w = false ->
  createInstance_outcome env1 = Returned doc1 ->
  initializeLocale_outcome env1 = Thrown e \/ addCommand_outcome env1 = Thrown e ->
  createInstance_outcome env2 = Returned doc2 ->
  isInitialized (CadViewerApp.initialize env1 w).2 = false /\
  instance (runtime (CadViewerApp.initialize env1 w).2) <> None /\
  constructions
    (runtime (CadViewerApp.initialize env2 (CadViewerApp.initialize env1 w).2).2)
  = S (S (constructions (runtime w))).
Proof.
  intros Hflag H1 Hthrown H2.
  assert (Hfirst : isInitialized (CadViewerApp.initialize env1 w).2 = false
                   /\ instance (runtime (CadViewerApp.initialize env1 w).2) <> None
                   /\ constructions (runtime (CadViewerApp.initialize env1 w).2)
                      = S (constructions (runtime w))).
  { unfold CadViewerApp.initialize, createInstance, initializeLocale,
      CadViewerApp.registerCommands, with_instance, external, try_catch, bind,
      gets, modify, ret.
    rewrite Hflag, H1. cbn [negb].
    destruct (initializeLocale_outcome env1) as [[]|e2] eqn:Hl.
    - cbn [runtime on_runtime instance].
      destruct Hthrown as [?|Ha]; [discriminate|]. rewrite Ha.
      frame. now rewrite Hflag.
    - frame. now rewrite Hflag. }
  destruct Hfirst as (Hdown & Hinst & Hcount).
  split; [exact Hdown|]. split; [exact Hinst|]. rewrite <- Hcount.
  generalize dependent (CadViewerApp.initialize env1 w).2. intros w1 Hdown _ _.
  unfold CadViewerApp.initialize, createInstance, initializeLocale,
    CadViewerApp.registerCommands, with_instance, external, try_catch, bind,
    gets, modify, ret.
  rewrite Hdown, H2. cbn [negb].
  destruct (initializeLocale_outcome env2) as [[]|?];
    [cbn [runtime on_runtime instance];
     destruct (addCommand_outcome env2) as [[]|?]|]; reflexivity.
Qed.

Lemma failed_initialize_constructs_again_witness :
  isInitialized
    (CadViewerApp.initialize
       (mkEnv (Returned true) (Thrown "Error: locale") (Returned tt)
              (fun _ _ _ => Returned true)) fresh).2 = false /\
  instance
    (runtime
       (CadViewerApp.initialize
          (mkEnv (Returned true) (Thrown "Error: locale") (Returned tt)
                 (fun _ _ _ => Returned true)) fresh).2) <> None /\
  constructions
    (runtime
       (CadViewerApp.initialize obliging
          (CadViewerApp.initialize
             (mkEnv (Returned true) (Thrown "Error: locale") (Returned tt)
                    (fun _ _ _ => Returned true)) fresh).2).2)
  = S (S (constructions (runtime fresh))).
Proof.
  apply (failed_initialize_constructs_again
           (mkEnv (Returned true) (Thrown "Error: locale") (Returned tt)
                  (fun _ _ _ => Returned true))
           obliging fresh true true "Error: locale").
  - reflexivity.
  - reflexivity.
  - left. reflexivity.
  - reflexivity.
Defined.

(** X7. When the runtime cannot be constructed, the container-based
    [loadFile] still reads an accepted file: it hides the new-drawing
    button, moves the file input container to its loaded place, opens
    nothing, and ends with one error popup 'Error loading file: ...'; the
    application stays uninitialised. *)
Theorem loadFile_without_runtime (env : Env) (file : File) (w : World) (e : string) :
  isInitialized w = false ->
  instance (runtime w) = None ->
  createInstance_outcome env = Thrown e ->
  has_extension (name file) ".dxf" \/ has_extension (name file) ".dwg" ->
  read_error file = None ->
  reads (browser (CadViewerApp.loadFile env file w).2)
  = (reads (browser w) ++ [(name file, AsArrayBuffer)])%list /\
  openCalls (runtime (CadViewerApp.loadFile env file w).2) = openCalls (runtime w) /\
  isInitialized (CadViewerApp.loadFile env file w).2 = false /\
  instance (runtime (CadViewerApp.loadFile env file w).2) = None /\
  newButtonHidden (browser (CadViewerApp.loadFile env file w).2) = true /\
  fileInputContainer (browser (CadViewerApp.loadFile env file w).2)
  = option_map (fun _ => true) (fileInputContainer (browser w)) /\
  exists e' : string,
    map textContent (popups (CadViewerApp.loadFile env file w).2)
    = ["Error loading file: " ++ e'] /\
    map className (popups (CadViewerApp.loadFile env file w).2)
    = [["popup-message"; "error"]].
Proof.
  intros Hflag Hinst Hc Hv%valid_name_spec He.
  assert (Hinit : exists w0,
            (CadViewerApp.initialize env w).2
            = showMessage "Failed to initialize CAD viewer" error
                (console_error ("Failed to initialize CAD viewer: " ++ e) w0)
            /\ w0 = w).
  { exists w. split; [|reflexivity].
    unfold CadViewerApp.initialize, createInstance, try_catch, bind, gets, modify.
    now rewrite Hflag, Hc. }
  destruct Hinit as (w0 & Hinit & ->).
  assert (Hi : instance (runtime (CadViewerApp.initialize env w).2) = None)
    by (rewrite Hinit; exact Hinst).
  destruct (loadFile_no_instance env file w Hv He Hi) as [e' ->].
  cbn [snd]. rewrite popups_showMessage, Hinit. frame.
  repeat (split; [first [reflexivity|assumption]|]).
  exists e'. cbn [map]. now rewrite textContent_new_popup, className_new_popup.
Qed.

Lemma loadFile_without_runtime_witness :
  reads (browser (CadViewerApp.loadFile broken
                    (mkFile "plan.dwg" [Byte.x41; Byte.x43] None) fresh).2)
  = [("plan.dwg", AsArrayBuffer)] /\
  openCalls (runtime (CadViewerApp.loadFile broken
                        (mkFile "plan.dwg" [Byte.x41; Byte.x43] None) fresh).2)
  = [] /\
  newButtonHidden (browser (CadViewerApp.loadFile broken
                              (mkFile "plan.dwg" [Byte.x41; Byte.x43] None)
                              fresh).2) = true.
Proof.
  destruct (loadFile_without_runtime broken
              (mkFile "plan.dwg" [Byte.x41; Byte.x43] None) fresh
              "Error: no WebGL" eq_refl eq_refl eq_refl)
    as (H1 & H2 & _ & _ & H3 & _).
  - right. exists "plan", ".dwg". split; [reflexivity|].
    cbn. repeat split; now left.
  - reflexivity.
  - split; [exact H1|]. split; [exact H2|exact H3].
Defined.

End LoadMore.

(** * What a load does to the page, in both applications *)

Section LoadEffects.

Local Open Scope string_scope.

Implicit Types (w : World) (env : Env) (file : File).

Ltac frame :=
  cbn [showMessage clearMessages console_error hideNewButton mark_loaded
       reading opening on_browser on_runtime setTimeout
       set_body set_nextUid set_now set_timers set_console set_reads
       set_newButtonHidden set_fileInputContainer set_loadingShown
       set_isInitialized CanvasViewerApp.showLoading
       browser runtime reads openCalls isInitialized instance constructions
       localeInits console newButtonHidden fileInputContainer loadingShown
       snd fst].




(** X8. What the container-based [loadFile] does to the controls of the
    page: it hides the new-drawing button exactly for the files it accepts,
    and gives the file input container the class [loaded] exactly when the
    accepted file was read, be the document opened or not. *)
Theorem loadFile_page_controls (env : Env) (file : File) (w : World) :
  (has_extension (name file) ".dxf" \/ has_extension (name file) ".dwg" ->
   newButtonHidden (browser (CadViewerApp.loadFile env file w).2) = true /\
   (read_error file = None ->
    fileInputContainer (browser (CadViewerApp.loadFile env file w).2)
    = option_map (fun _ => true) (fileInputContainer (browser w))) /\
   (read_error file <> None ->
    fileInputContainer (browser (CadViewerApp.loadFile env file w).2)
    = fileInputContainer (browser w))) /\
  (~ (has_extension (name file) ".dxf" \/ has_extension (name file) ".dwg") ->
   newButtonHidden (browser (CadViewerApp.loadFile env file w).2)
   = newButtonHidden (browser w) /\
   fileInputContainer (browser (CadViewerApp.loadFile env file w).2)
   = fileInputContainer (browser w)).
Proof.
  destruct (initialize_controls env w) as (Hb & Hc & _). split.
  - intros Hv%valid_name_spec.
    destruct (read_error file) as [e|] eqn:He.
    + rewrite (loadFile_read_failed env file w e Hv He). frame.
      split; [reflexivity|]. split; [discriminate|]. now intros _.
    + destruct (instance (runtime (CadViewerApp.initialize env w).2))
        as [d|] eqn:Hi.
      * rewrite (loadFile_opened env file w d Hv He Hi). cbv zeta.
        destruct (openDocument_outcome env (name file) (ArrayBuffer (data file))
                    (mkOpenOptions 1000 true)) as [[|]|e];
          frame; (split; [reflexivity|]);
          (split; [intros _; now rewrite Hc|now intros []]).
      * destruct (loadFile_no_instance env file w Hv He Hi) as [e ->]. frame.
        split; [reflexivity|]. split; [intros _; now rewrite Hc|now intros []].
  - intros Hv%invalid_name_spec. rewrite (loadFile_rejected env file w Hv).
    frame. now split.
Qed.

(** X9. The canvas-based [loadFile] takes the loading indicator down at the
    end of every load it starts, whatever the outcome of the read and of
    [openDocument]; a file it refuses leaves the indicator as it was.  It
    never hides the new-drawing button. *)
Theorem canvas_loading_indicator (env : Env) (file : File) (w : World) :
  (instance (runtime w) <> None ->
   has_extension (name file) ".dxf" \/ has_extension (name file) ".dwg" ->
   loadingShown (browser (CanvasViewerApp.loadFile env file w).2) = false) /\
  (instance (runtime w) = None \/
   ~ (has_extension (name file) ".dxf" \/ has_extension (name file) ".dwg") ->
   loadingShown (browser (CanvasViewerApp.loadFile env file w).2)
   = loadingShown (browser w)) /\
  newButtonHidden (browser (CanvasViewerApp.loadFile env file w).2)
  = newButtonHidden (browser w).
Proof.
  destruct (instance (runtime w)) as [d|] eqn:Hd.
  - destruct (valid_name file) eqn:Hv.
    + assert (Hend : loadingShown (browser (CanvasViewerApp.loadFile env file w).2)
                     = false
                     /\ newButtonHidden
                          (browser (CanvasViewerApp.loadFile env file w).2)
                        = newButtonHidden (browser w)).
      { destruct (read_error file) as [e|] eqn:He.
        - now rewrite (canvas_loadFile_read_failed env file w d e Hd Hv He).
        - rewrite (canvas_loadFile_opened env file w d Hd Hv He). cbv zeta.
          now destruct (openDocument_outcome env (name file)
                          (content_of (canvas_mode file) file)
                          (mkOpenOptions 1000 true)) as [[|]|e]. }
      destruct Hend as [H1 H2]. split; [now intros _ _|]. split; [|exact H2].
      intros [?|Hn]; [discriminate|]. apply valid_name_spec in Hv. contradiction.
    + rewrite (canvas_loadFile_rejected env file w d Hd Hv). frame.
      split; [|now split]. intros _ Hv'%valid_name_spec. congruence.
  - rewrite (canvas_loadFile_no_instance env file w Hd). frame.
    split; [now intros []|now split].
Qed.

(** X3. The extension test looks at the last four characters of the name
    and at nothing else: a name of fewer than four characters is never
    read, and a name ending in the four characters [tail] is read exactly
    when [tail] spells .dxf or .dwg in some mix of cases. *)
Theorem extension_is_the_last_four_characters (env : Env) (file : File) (w : World) :
  (String.length (name file) < 4 ->
   reads (browser (CadViewerApp.loadFile env file w).2) = reads (browser w)) /\
  (forall stem tail : string,
     name file = stem ++ tail -> String.length tail = 4 ->
     (reads (browser (CadViewerApp.loadFile env file w).2)
      = (reads (browser w) ++ [(name file, AsArrayBuffer)])%list
      <-> spelled tail ".dxf" \/ spelled tail ".dwg")).
Proof.
  destruct (loadFile_ends_with_message env file w) as (m & t & w0 & -> & Hr).
  frame. rewrite Hr. clear Hr. split.
  - intros Hlen. destruct (valid_name file) eqn:Hv; [|apply app_nil_r].
    apply valid_name_spec in Hv.
    destruct Hv as [(s1 & s2 & Hn & Hs)|(s1 & s2 & Hn & Hs)];
      apply spelled_length in Hs; rewrite Hn, string_length_app in Hlen;
      cbn in Hs; lia.
  - intros stem tail Hn Hlen. split.
    + intros H. apply app_inv_head in H.
      destruct (valid_name file) eqn:Hv; [|discriminate].
      apply valid_name_spec in Hv.
      destruct Hv as [(s1 & s2 & Hn' & Hs)|(s1 & s2 & Hn' & Hs)];
        [left|right];
        (rewrite Hn in Hn'; apply app_split_length in Hn' as [_ ->];
         [exact Hs|apply spelled_length in Hs; cbn in Hs; lia]).
    + intros Hs.
      assert (Hv : valid_name file = true).
      { apply valid_name_spec.
        destruct Hs as [Hs|Hs]; [left|right]; now exists stem, tail. }
      now rewrite Hv.
Qed.

(** X4. The canvas-based [readFile] refuses a file without touching the
    reader, with 'Unsupported file type', exactly when the name ends in
    neither .dxf nor .dwg: the names [loadFile] has already refused, so that
    under [loadFile] this refusal never happens. *)
Theorem canvas_readFile_unsupported (file : File) (w : World) :
  CanvasViewerApp.readFile file w = (Thrown "Error: Unsupported file type", w)
  <-> ~ (has_extension (name file) ".dxf" \/ has_extension (name file) ".dwg").
Proof.
  rewrite <- invalid_name_spec. split.
  - intros H. destruct (valid_name file) eqn:Hv; [|reflexivity]. exfalso.
    rewrite canvas_readFile_run in H by exact Hv. unfold read_as in H.
    assert (Hlen : length (reads (browser (reading (canvas_mode file) file w)))
                   = length (reads (browser w))).
    { destruct (read_error file); injection H as _ H;
        unfold reading; now rewrite H. }
    cbn in Hlen. rewrite length_app in Hlen. cbn in Hlen. lia.
  - unfold valid_name, CanvasViewerApp.readFile. intros Hv.
    apply orb_false_iff in Hv as [-> ->]. reflexivity.
Qed.

End LoadEffects.

(** * The life of a message, and the clicks *)

Section MessageLife.

Local Open Scope string_scope.
Local Open Scope list_scope.

Implicit Types (w : World) (f : list Node) (p : Attrs) (tm : Timer).

Lemma detach_all_app sel f1 f2 :
  detach_all sel (f1 ++ f2) = detach_all sel f1 ++ detach_all sel f2.
Proof. unfold detach_all. now rewrite map_app, List.filter_app. Qed.

Lemma querySelectorAll_nil_detach q sel f :
  querySelectorAll q f = [] -> querySelectorAll q (detach_all sel f) = [].
Proof.
  intros H. apply sublist_nil_r. rewrite <- H.
  apply querySelectorAll_detach_sublist.
Qed.

Lemma querySelectorAll_nil_restyle q sel g f :
  (forall a, q (g a) = q a) ->
  querySelectorAll q f = [] -> querySelectorAll q (map (restyle sel g) f) = [].
Proof. intros Hq H. now rewrite querySelectorAll_restyle, H. Qed.

Lemma popups_last f p :
  querySelectorAll is_popup f = [] -> is_popup p = true ->
  querySelectorAll is_popup (f ++ [Element p []]) = [p].
Proof.
  intros Hf Hp. rewrite querySelectorAll_app, Hf.
  unfold querySelectorAll. cbn. now rewrite Hp.
Qed.

Lemma pick_one tm : pick [tm] = Some (tm, []).
Proof. reflexivity. Qed.

Lemma pick_two tm1 tm2 :
  due tm1 <= due tm2 -> pick [tm1; tm2] = Some (tm1, [tm2]).
Proof.
  intros H. cbn [pick].
  now replace (due tm2 <? due tm1)%nat with false by (symmetry; apply Nat.ltb_ge, H).
Qed.

(** One turn of the event loop on a page whose only popup is the last
    child of the body. *)
Lemma fire_fade w d u rest f p :
  pick (timers (browser w)) = Some (mkTimer d (FadeOut u), rest) ->
  body (browser w) = f ++ [Element p []] ->
  querySelectorAll is_popup f = [] ->
  exists f',
    body (browser (fire w))
    = f' ++ [Element (if is_uid u p then set_style "opacity" "0" p else p) []] /\
    querySelectorAll is_popup f' = [] /\
    timers (browser (fire w))
    = (rest ++ [mkTimer (Nat.max d (now (browser w)) + 200) (Remove u)])%list /\
    now (browser (fire w)) = Nat.max d (now (browser w)).
Proof.
  intros Hp Hb Hf. unfold fire. rewrite Hp.
  exists (map (restyle (is_uid u) (set_style "opacity" "0")) f).
  cbn -[restyle querySelectorAll]. rewrite Hb, map_app.
  split; [reflexivity|]. split; [|now split].
  now apply querySelectorAll_nil_restyle.
Qed.

Lemma fire_remove_other w d u rest f p :
  pick (timers (browser w)) = Some (mkTimer d (Remove u), rest) ->
  body (browser w) = f ++ [Element p []] ->
  querySelectorAll is_popup f = [] ->
  is_uid u p = false ->
  exists f',
    body (browser (fire w)) = f' ++ [Element p []] /\
    querySelectorAll is_popup f' = [] /\
    timers (browser (fire w)) = rest /\
    now (browser (fire w)) = Nat.max d (now (browser w)).
Proof.
  intros Hp Hb Hf Hu. unfold fire. rewrite Hp.
  exists (detach_all (is_uid u) f).
  cbn -[detach_all querySelectorAll]. rewrite Hb, detach_all_app.
  split; [|split; [now apply querySelectorAll_nil_detach|now split]].
  f_equal. unfold detach_all. cbn. now rewrite Hu.
Qed.

Lemma fire_remove_own w d u rest f p :
  pick (timers (browser w)) = Some (mkTimer d (Remove u), rest) ->
  body (browser w) = f ++ [Element p []] ->
  querySelectorAll is_popup f = [] ->
  is_uid u p = true ->
  popups (fire w) = [] /\
  timers (browser (fire w)) = rest /\
  now (browser (fire w)) = Nat.max d (now (browser w)).
Proof.
  intros Hp Hb Hf Hu. unfold fire, popups. rewrite Hp.
  cbn -[detach_all querySelectorAll]. rewrite Hb, detach_all_app.
  split; [|now split].
  rewrite querySelectorAll_app, querySelectorAll_nil_detach by exact Hf.
  unfold detach_all. cbn. now rewrite Hu.
Qed.

Lemma showMessage_body m t w :
  body (browser (showMessage m t w))
  = detach_all is_popup (body (browser w))
    ++ [Element (new_popup (nextUid (browser w)) m t) []].
Proof. reflexivity. Qed.

Lemma showMessage_timers m t w :
  timers (browser (showMessage m t w))
  = (timers (browser w)
     ++ [mkTimer (now (browser w) + 1000) (FadeOut (nextUid (browser w)))])%list.
Proof. reflexivity. Qed.

Lemma is_uid_new_popup u v m t : is_uid u (new_popup v m t) = (v =? u)%nat.
Proof. unfold is_uid. now rewrite uid_new_popup. Qed.

(** X11. The life of a message on a page with no other timer pending: it
    is shown at full opacity, after 1000 ms its opacity is set to 0 and it
    is still in the document, and 200 ms later it is removed; nothing is
    left pending. *)
Theorem message_lifetime (message : string) (type : MessageType) (w : World) :
  timers (browser w) = [] ->
  popups (showMessage message type w)
  = [new_popup (nextUid (browser w)) message type] /\
  popups (fire (showMessage message type w))
  = [set_style "opacity" "0" (new_popup (nextUid (browser w)) message type)] /\
  now (browser (fire (showMessage message type w))) = now (browser w) + 1000 /\
  popups (fire_n 2 (showMessage message type w)) = [] /\
  now (browser (fire_n 2 (showMessage message type w))) = now (browser w) + 1200 /\
  timers (browser (fire_n 2 (showMessage message type w))) = [].
Proof.
  intros Hts. split; [apply popups_showMessage|].
  set (w1 := showMessage message type w).
  set (u := nextUid (browser w)).
  assert (Hp1 : pick (timers (browser w1))
                = Some (mkTimer (now (browser w) + 1000) (FadeOut u), [])).
  { subst w1. now rewrite showMessage_timers, Hts. }
  destruct (fire_fade w1 _ u [] _ _ Hp1 (showMessage_body message type w)
              (querySelectorAll_detach_all _ _))
    as (f1 & Hb1 & Hf1 & Ht1 & Hn1).
  fold u in Hb1. rewrite is_uid_new_popup, Nat.eqb_refl in Hb1.
  assert (Hnow : now (browser w1) = now (browser w)) by reflexivity.
  rewrite Hnow in Ht1, Hn1.
  replace (Nat.max (now (browser w) + 1000) (now (browser w)))
    with (now (browser w) + 1000) in Ht1, Hn1 by lia.
  split.
  { unfold popups. rewrite Hb1. apply popups_last; [exact Hf1|].
    apply is_popup_new_popup. }
  split; [exact Hn1|].
  assert (Hp2 : pick (timers (browser (fire w1)))
                = Some (mkTimer (now (browser w) + 1000 + 200) (Remove u), [])).
  { now rewrite Ht1. }
  destruct (fire_remove_own (fire w1) _ u [] _ _ Hp2 Hb1 Hf1) as (Hq & Ht2 & Hn2).
  { cbn. unfold is_uid. rewrite uid_new_popup. apply Nat.eqb_refl. }
  cbn [fire_n]. split; [exact Hq|]. split; [|exact Ht2].
  rewrite Hn2, Hn1. lia.
Qed.

Lemma message_lifetime_witness :
  map textContent (popups (fire (showMessage "Saved" success fresh))) = ["Saved"] /\
  popups (fire_n 2 (showMessage "Saved" success fresh)) = [] /\
  now (browser (fire_n 2 (showMessage "Saved" success fresh))) = 1200.
Proof.
  destruct (message_lifetime "Saved" success fresh eq_refl)
    as (_ & H1 & _ & H2 & H3 & _).
  split; [now rewrite H1|]. split; [exact H2|exact H3].
Defined.

(** X12. The timers of a message that was replaced leave the newer message
    alone.  When a second message is shown right after a first one (no other
    timer pending), the first message's fade and its removal change nothing
    of the second popup, which fades and is removed by its own timers. *)
Theorem replaced_message_timers_are_harmless
    (m1 m2 : string) (t1 t2 : MessageType) (w : World) :
  timers (browser w) = [] ->
  popups (showMessage m2 t2 (showMessage m1 t1 w))
  = [new_popup (S (nextUid (browser w))) m2 t2] /\
  popups (fire (showMessage m2 t2 (showMessage m1 t1 w)))
  = [new_popup (S (nextUid (browser w))) m2 t2] /\
  popups (fire_n 2 (showMessage m2 t2 (showMessage m1 t1 w)))
  = [set_style "opacity" "0" (new_popup (S (nextUid (browser w))) m2 t2)] /\
  popups (fire_n 3 (showMessage m2 t2 (showMessage m1 t1 w)))
  = [set_style "opacity" "0" (new_popup (S (nextUid (browser w))) m2 t2)] /\
  popups (fire_n 4 (showMessage m2 t2 (showMessage m1 t1 w))) = [].
Proof.
  intros Hts. split; [apply popups_showMessage|].
  set (w2 := showMessage m2 t2 (showMessage m1 t1 w)).
  set (u := nextUid (browser w)).
  set (n := now (browser w)).
  set (p2 := new_popup (S u) m2 t2).
  assert (Hu : is_uid u p2 = false).
  { subst p2. rewrite is_uid_new_popup. apply Nat.eqb_neq. lia. }
  assert (Hu' : is_uid (S u) p2 = true).
  { subst p2. rewrite is_uid_new_popup. apply Nat.eqb_refl. }
  assert (Hpop : is_popup p2 = true) by apply is_popup_new_popup.
  assert (Hfade : is_popup (set_style "opacity" "0" p2) = true) by exact Hpop.
  (* the first message fades: nothing happens to the second *)
  assert (Hp1 : pick (timers (browser w2))
                = Some (mkTimer (n + 1000) (FadeOut u),
                        [mkTimer (n + 1000) (FadeOut (S u))])).
  { subst w2. rewrite !showMessage_timers, Hts. cbn [app]. now apply pick_two. }
  destruct (fire_fade w2 _ u _ _ _ Hp1
              (showMessage_body m2 t2 (showMessage m1 t1 w))
              (querySelectorAll_detach_all _ _))
    as (f1 & Hb1 & Hf1 & Ht1 & Hn1).
  change (nextUid (browser (showMessage m1 t1 w))) with (S u) in Hb1.
  fold p2 in Hb1. rewrite Hu in Hb1.
  change (now (browser w2)) with n in Ht1, Hn1.
  replace (Nat.max (n + 1000) n) with (n + 1000) in Ht1, Hn1 by lia.
  split. { unfold popups. rewrite Hb1. now apply popups_last. }
  (* the second message fades *)
  assert (Hp2 : pick (timers (browser (fire w2)))
                = Some (mkTimer (n + 1000) (FadeOut (S u)),
                        [mkTimer (n + 1000 + 200) (Remove u)])).
  { rewrite Ht1. cbn [app]. apply pick_two. cbn. lia. }
  destruct (fire_fade (fire w2) _ (S u) _ _ _ Hp2 Hb1 Hf1)
    as (f2 & Hb2 & Hf2 & Ht2 & Hn2).
  rewrite Hu' in Hb2. rewrite Hn1 in Ht2, Hn2.
  replace (Nat.max (n + 1000) (n + 1000)) with (n + 1000) in Ht2, Hn2 by lia.
  split. { cbn [fire_n]. unfold popups. rewrite Hb2. now apply popups_last. }
  (* the first message is removed: it is not in the document any more *)
  assert (Hp3 : pick (timers (browser (fire (fire w2))))
                = Some (mkTimer (n + 1000 + 200) (Remove u),
                        [mkTimer (n + 1000 + 200) (Remove (S u))])).
  { rewrite Ht2. cbn [app]. now apply pick_two. }
  destruct (fire_remove_other (fire (fire w2)) _ u _ _ _ Hp3 Hb2 Hf2)
    as (f3 & Hb3 & Hf3 & Ht3 & Hn3); [exact Hu|].
  split. { cbn [fire_n]. unfold popups. rewrite Hb3. now apply popups_last. }
  (* the second message is removed *)
  assert (Hp4 : pick (timers (browser (fire (fire (fire w2)))))
                = Some (mkTimer (n + 1000 + 200) (Remove (S u)), [])).
  { now rewrite Ht3. }
  destruct (fire_remove_own (fire (fire (fire w2))) _ (S u) _ _ _ Hp4 Hb3 Hf3)
    as (Hq & _); [exact Hu'|].
  exact Hq.
Qed.

Lemma replaced_message_timers_are_harmless_witness :
  map textContent
      (popups (fire_n 3 (showMessage "second" success
                           (showMessage "first" error fresh))))
  = ["second"] /\
  popups (fire_n 4 (showMessage "second" success
                      (showMessage "first" error fresh))) = [].
Proof.
  destruct (replaced_message_timers_are_harmless
              "first" "second" error success fresh eq_refl)
    as (_ & _ & _ & H3 & H4).
  split; [now rewrite H3|exact H4].
Defined.

End MessageLife.

(** * Clearing messages, and the new-drawing button *)

Section ClearAndClick.

Local Open Scope string_scope.

Implicit Types (w : World) (env : Env) (f : list Node) (n : Node).







End ClearAndClick.
